(** * LayerEdge automation bot

    A shallow embedding of [src/main.js]: the retry executor
    ([RequestHandler.makeRequest]), the wallet session
    ([LayerEdgeConnection]) and the orchestration loop ([run]).

    The numbers the program computes with (the durations of its timers)
    are binary64 floats ([PrimFloat]); the numbers inside JSON bodies are
    rationals ([Q]).  Strings are byte strings holding UTF-8 text.  Every
    interaction with the outside world (HTTP exchange, timer, console,
    signing, process exit) is an [event] appended to a trace, and the
    outside world answers as a function of the trace so far. *)

From Stdlib Require Import String Ascii List ZArith QArith Qfield Bool Lia DecimalString.
From Stdlib Require Import Floats.
Import ListNotations.

Set Warnings "-register-all".

Local Open Scope string_scope.
Local Open Scope list_scope.
Local Open Scope nat_scope.

(** ** JavaScript values *)

Module JS.

Inductive value : Type :=
| Undefined
| Null
| Bool (b : bool)
| Num (q : Q)
| Str (s : string)
| Arr (xs : list value)
| Obj (fields : list (string * value)).

(** Exceptions that reach a [catch]: the engine's [TypeError], a
    [throw new Error(msg)], and a failure raised inside a library. *)
Inductive exn : Type :=
| TypeError
| Error (msg : string)
| LibraryError (origin : string).

(** ToBoolean. *)
Definition truthy (v : value) : bool :=
  match v with
  | Undefined | Null => false
  | Bool b => b
  | Num q => negb (Qeq_bool q 0)
  | Str s => negb (s =? "")%string
  | Arr _ | Obj _ => true
  end.

Fixpoint lookup (k : string) (fields : list (string * value)) : value :=
  match fields with
  | [] => Undefined
  | (k', v) :: rest => if (k =? k')%string then v else lookup k rest
  end.

(** [v.k] for the own data properties the program reads; [None] is the
    TypeError raised when [v] is [undefined] or [null].  Primitives and
    arrays have none of the keys read here. *)
Definition get (v : value) (k : string) : option value :=
  match v with
  | Undefined | Null => None
  | Obj fields => Some (lookup k fields)
  | _ => Some Undefined
  end.

(** [v?.k] *)
Definition get_opt (v : value) (k : string) : value :=
  match get v k with
  | Some x => x
  | None => Undefined
  end.

Definition is_null (v : value) : bool :=
  match v with Null => true | _ => false end.

Definition is_true (v : value) : bool :=
  match v with Bool true => true | _ => false end.

(** [v === n] for a number literal [n] *)
Definition eq_num (v : value) (n : Q) : bool :=
  match v with Num q => Qeq_bool q n | _ => false end.

(** [v === s] for a string literal [s] *)
Definition eq_str (v : value) (s : string) : bool :=
  match v with Str t => (t =? s)%string | _ => false end.

(** [a || b] *)
Definition or (a b : value) : value := if truthy a then a else b.

End JS.

(** ** Strings *)

Definition string_of_nat (n : nat) : string :=
  NilZero.string_of_uint (Nat.to_uint n).

Definition string_of_Z (z : Z) : string :=
  NilZero.string_of_int (Z.to_int z).

(** What follows the prefix [p] of [s], when [s] starts with [p]. *)
Fixpoint strip_prefix (p s : string) : option string :=
  match p, s with
  | EmptyString, _ => Some s
  | String a p', String b s' => if Ascii.eqb a b then strip_prefix p' s' else None
  | String _ _, EmptyString => None
  end.

Definition bytes (codes : list nat) : string :=
  string_of_list_ascii (map ascii_of_nat codes).

Definition reverse (s : string) : string :=
  string_of_list_ascii (rev (list_ascii_of_string s)).

(** The characters of the ECMAScript WhiteSpace and LineTerminator classes,
    which are what [\s] matches and what [trim] removes, each in UTF-8:
    TAB, LF, VT, FF, CR, SP, U+00A0, U+1680, U+2000 to U+200A, U+2028,
    U+2029, U+202F, U+205F, U+3000 and U+FEFF. *)
Definition white_space : list string :=
  map bytes
    [ [9]; [10]; [11]; [12]; [13]; [32];
      [194; 160];
      [225; 154; 128];
      [226; 128; 128]; [226; 128; 129]; [226; 128; 130]; [226; 128; 131];
      [226; 128; 132]; [226; 128; 133]; [226; 128; 134]; [226; 128; 135];
      [226; 128; 136]; [226; 128; 137]; [226; 128; 138];
      [226; 128; 168]; [226; 128; 169];
      [226; 128; 175];
      [226; 129; 159];
      [227; 128; 128];
      [239; 187; 191] ].

(** The first of the characters [ws] that [s] starts with, and what
    follows it. *)
Fixpoint strip_one (ws : list string) (s : string) : option (string * string) :=
  match ws with
  | [] => None
  | w :: ws' =>
      match strip_prefix w s with
      | Some rest => Some (w, rest)
      | None => strip_one ws' s
      end
  end.

(** The longest run of characters of [ws] that [s] starts with, and what
    follows the run; [fuel] bounds the length of the run. *)
Fixpoint leading (ws : list string) (fuel : nat) (s : string) : list string * string :=
  match fuel with
  | O => ([], s)
  | S fuel' =>
      match strip_one ws s with
      | Some (w, rest) =>
          let (run, rest') := leading ws fuel' rest in (w :: run, rest')
      | None => ([], s)
      end
  end.

(** The parts one after the other. *)
Fixpoint join (parts : list string) : string :=
  match parts with
  | [] => EmptyString
  | part :: rest => (part ++ join rest)%string
  end.

Definition trimStart (s : string) : string :=
  snd (leading white_space (String.length s) s).

Definition trimEnd (s : string) : string :=
  reverse (snd (leading (map reverse white_space) (String.length s) (reverse s))).

Definition trim (s : string) : string := trimEnd (trimStart s).

(** [s.startsWith(p)] *)
Definition startsWith (s p : string) : bool := String.prefix p s.

(** [s.split('\n')] *)
Fixpoint split_lines (s : string) : list string :=
  match s with
  | EmptyString => [EmptyString]
  | String c s' =>
      if Ascii.eqb c "010"%char then EmptyString :: split_lines s'
      else match split_lines s' with
           | l :: ls => String c l :: ls
           | [] => [String c EmptyString]
           end
  end.

(** ** HTTP: what axios is given and what it answers *)

Inductive agent : Type :=
| HttpsProxyAgent (uri : string)
| SocksProxyAgent (uri : string).

Definition headers_t := list (string * string).

(** [{...a, ...b}] on header objects: keys of [b] win. *)
Definition spread (a b : headers_t) : headers_t :=
  filter (fun kv => negb (existsb (fun kv' => (fst kv' =? fst kv)%string) b)) a ++ b.

Module Config.
Record t : Type := mk {
  method : string;
  url : string;
  httpsAgent : option agent;      (* absent or null: direct connection *)
  timeout : Z;
  headers : headers_t;
  validateStatus : Z -> bool;
  data : option JS.value;         (* request payload, when given *)
}.
End Config.

Module Response.
Record t : Type := mk {
  status : Z;
  data : JS.value;
}.
End Response.

(** What comes back from the wire for one exchange. *)
Inductive raw_result : Type :=
| Answered (r : Response.t)
| NoAnswer.                          (* network failure, timeout *)

(** The error axios rejects with; [response] is absent when nothing was
    received. *)
Module AxiosError.
Record t : Type := mk { response : option Response.t }.
(** [error.response?.status] *)
Definition status (e : t) : option Z := option_map Response.status (response e).
End AxiosError.

Inductive settled : Type :=
| Resolved (r : Response.t)
| Rejected (e : AxiosError.t).

(** axios settles an answered exchange by the config's [validateStatus]:
    it resolves with the response when the status is accepted and rejects
    with an error carrying the response otherwise. *)
Definition settle (cfg : Config.t) (raw : raw_result) : settled :=
  match raw with
  | Answered r =>
      if Config.validateStatus cfg (Response.status r) then Resolved r
      else Rejected (AxiosError.mk (Some r))
  | NoAnswer => Rejected (AxiosError.mk None)
  end.

(** ** Events and the environment *)

Inductive level : Type := info | warn | error | success | debug | verbose.

Module Wallet.
Record t : Type := mk { address : string; privateKey : string }.
End Wallet.

(** [EvLog] is a console line of the logger, [EvProgress] one of
    [logger.progress]; [EvAxios] is one exchange with its outcome; [EvSign]
    a call of the signer; [EvTimeout] a timer of [setTimeout]; [EvExit] is
    [process.exit].  [EvCall] is never emitted by the program: it records a
    call on the stand-in session used below to observe the loop (the
    constructor's arguments, or what a method returned). *)
Inductive event : Type :=
| EvLog (lvl : level) (message : string) (value : JS.value)
| EvProgress (wallet step status : string)
| EvAxios (cfg : Config.t) (outcome : settled)
| EvSign (w : Wallet.t) (message : string)
| EvTimeout (ms : float)
| EvCall (method : string) (values : list JS.value)
| EvExit (code : Z).

Definition trace := list event.

(** An entry of wallets.json.  The file is taken to hold what the program
    expects: an array of objects with a string [address] and a string,
    null or absent [privateKey] ([None]).  Other JSON values (a non-array,
    an array with a null entry) are outside this model. *)
Module Entry.
Record t : Type := mk { address : string; privateKey : option string }.
End Entry.

Inductive wallets_file : Type :=
| Missing                            (* ENOENT *)
| Unreadable                         (* any other fs or JSON.parse failure *)
| Parsed (wallets : list Entry.t).

Record Env : Type := {
  (** the exchange behind [axios(config)], given all that happened before *)
  transport : trace -> Config.t -> raw_result;
  (** [Date.now()] *)
  now : trace -> Z;
  (** [new Wallet(privateKey)]; [None] when ethers rejects the key *)
  wallet_of_key : string -> option Wallet.t;
  (** [Wallet.createRandom()] *)
  createRandom : trace -> Wallet.t;
  (** [wallet.signMessage(message)]; [None] when it rejects *)
  signMessage : Wallet.t -> string -> option string;
  (** [fs.readFile(path, 'utf8')]; [None] when it rejects *)
  fs_readFile : string -> option string;
  (** what reading and parsing wallets.json gives *)
  wallets_json : wallets_file;
  (** [Math.pow(x, i)] for a loop counter [i]: ECMAScript leaves its
      rounding to the engine *)
  Math_pow : float -> nat -> float;
  (** whether [new HttpsProxyAgent(uri)] returns; it throws on a URI it
      cannot parse *)
  HttpsProxyAgent_accepts : string -> bool;
  (** whether [new SocksProxyAgent(uri)] returns *)
  SocksProxyAgent_accepts : string -> bool;
}.

(** ** Computations: a result or an exception, and the events emitted *)

Inductive res (A : Type) : Type :=
| Ok (a : A)
| Throw (e : JS.exn).
Arguments Ok {A} a.
Arguments Throw {A} e.

(** A computation reads the trace so far and returns the events it adds. *)
Definition M (A : Type) : Type := trace -> res A * trace.

Definition ret {A} (a : A) : M A := fun _ => (Ok a, []).

Definition throw {A} (e : JS.exn) : M A := fun _ => (Throw e, []).

Definition bind {A B} (m : M A) (k : A -> M B) : M B :=
  fun h =>
    match m h with
    | (Ok a, t1) =>
        match k a (h ++ t1) with
        | (r, t2) => (r, t1 ++ t2)
        end
    | (Throw e, t1) => (Throw e, t1)
    end.

(** [try { m } catch (e) { handler e }] *)
Definition try_catch {A} (m : M A) (handler : JS.exn -> M A) : M A :=
  fun h =>
    match m h with
    | (Ok a, t1) => (Ok a, t1)
    | (Throw e, t1) =>
        match handler e (h ++ t1) with
        | (r, t2) => (r, t1 ++ t2)
        end
    end.

Definition emit (e : event) : M unit := fun _ => (Ok tt, [e]).

Declare Scope js_scope.
Delimit Scope js_scope with js.
Notation "x <- m ;; k" := (bind m (fun x => k))
  (at level 61, m at next level, right associativity) : js_scope.
Notation "m ;; k" := (bind m (fun _ => k))
  (at level 61, right associativity) : js_scope.
Local Open Scope js_scope.

(** ** The logger and the delay primitive *)

Module logger.
(** [logger.log]: one console line.  The [error] argument only adds
    detail to the printed line and is not recorded. *)
Definition log (lvl : level) (message : string) (value : JS.value) : M unit :=
  emit (EvLog lvl message value).
Definition info := log info.
Definition warn := log warn.
Definition error := log error.
(** The key [verbose] is defined twice in the object literal; the later
    (the function) wins, so [logger.verbose && ...] always logs. *)
Definition verbose := log verbose.
Definition progress (wallet step status : string) : M unit :=
  emit (EvProgress wallet step status).
End logger.

(** [delay(ms)]: [setTimeout(resolve, ms * 1000)]; callers pass seconds. *)
Definition delay (ms : float) : M unit := emit (EvTimeout (ms * 1000)%float).

(** ** The retry executor *)

(** [await axios(config)]: one exchange, settled. *)
Definition axios (env : Env) (config : Config.t) : M settled :=
  fun h =>
    let outcome := settle config (transport env h config) in
    (Ok outcome, [EvAxios config outcome]).

Module RequestHandler.

Definition default_retries : nat := 30.
Definition default_backoffMs : float := 2000.

(** [status === 500] on [error.response?.status] *)
Definition is_500 (status : option Z) : bool :=
  match status with
  | Some s => (s =? 500)%Z
  | None => false
  end.

(** The body of [for (let i = 0; i < retries; i++)], from iteration [i]
    on; [remaining] is [retries - i], so the loop test [i < retries]
    fails exactly when [remaining] is 0. *)
Fixpoint loop (env : Env) (config : Config.t) (retries : nat) (backoffMs : float)
    (remaining i : nat) : M (option Response.t) :=
  match remaining with
  | O => ret None
  | S remaining' =>
      logger.verbose
        ("尝试请求 (" ++ string_of_nat (i + 1) ++ "/" ++ string_of_nat retries ++ ")")
        (JS.Str ("URL: " ++ Config.url config));;
      outcome <- axios env config;;
      match outcome with
      | Resolved response =>
          logger.verbose "请求成功"
            (JS.Str ("状态: " ++ string_of_Z (Response.status response)));;
          ret (Some response)
      | Rejected err =>
          let isLastRetry := (Z.of_nat i =? Z.of_nat retries - 1)%Z in
          let status := AxiosError.status err in
          if is_500 status then
            logger.error "服务器错误 (500)"
              (JS.Str ("尝试 " ++ string_of_nat (i + 1) ++ "/" ++ string_of_nat retries));;
            if isLastRetry then ret None
            else
              let waitTime := (backoffMs * Math_pow env 1.5 i)%float in
              logger.warn "等待 ${waitTime/1000}秒后重试..." (JS.Str "");;
              delay (waitTime / 1000);;
              loop env config retries backoffMs remaining' (S i)
          else if isLastRetry then
            logger.error "达到最大重试次数" (JS.Str "");;
            ret None
          else
            logger.warn "请求失败"
              (JS.Str ("尝试 " ++ string_of_nat (i + 1) ++ "/" ++ string_of_nat retries));;
            delay 2;;
            loop env config retries backoffMs remaining' (S i)
      end
  end.

(** [static async makeRequest(config, retries = 30, backoffMs = 2000)];
    [null] is [None]. *)
Definition makeRequest (env : Env) (config : Config.t)
    (retries : nat) (backoffMs : float) : M (option Response.t) :=
  loop env config retries backoffMs retries 0.

End RequestHandler.

(** The console line that opens iteration [i] of the loop. *)
Definition attempt_line (config : Config.t) (retries i : nat) : event :=
  EvLog verbose
    ("尝试请求 (" ++ string_of_nat (i + 1) ++ "/" ++ string_of_nat retries ++ ")")
    (JS.Str ("URL: " ++ Config.url config)).

(** *** Reading a trace *)

(** The outcomes of the exchanges, in order. *)
Fixpoint attempts (t : trace) : list settled :=
  match t with
  | [] => []
  | EvAxios _ o :: t' => o :: attempts t'
  | _ :: t' => attempts t'
  end.

(** The method and URL of the exchanges, in order. *)
Fixpoint requests (t : trace) : list (string * string) :=
  match t with
  | [] => []
  | EvAxios config _ :: t' => (Config.method config, Config.url config) :: requests t'
  | _ :: t' => requests t'
  end.

(** The agents the exchanges went through, in order. *)
Fixpoint agents (t : trace) : list (option agent) :=
  match t with
  | [] => []
  | EvAxios config _ :: t' => Config.httpsAgent config :: agents t'
  | _ :: t' => agents t'
  end.

(** The timer durations (milliseconds), in order. *)
Fixpoint waits (t : trace) : list float :=
  match t with
  | [] => []
  | EvTimeout ms :: t' => ms :: waits t'
  | _ :: t' => waits t'
  end.

Inductive beat : Type := Attempt | Wait.

(** Exchanges and timers in the order they happen. *)
Fixpoint rhythm (t : trace) : list beat :=
  match t with
  | [] => []
  | EvAxios _ _ :: t' => Attempt :: rhythm t'
  | EvTimeout _ :: t' => Wait :: rhythm t'
  | _ :: t' => rhythm t'
  end.

(** [n] attempts with a wait between consecutive ones. *)
Fixpoint alternating (n : nat) : list beat :=
  match n with
  | O => []
  | S O => [Attempt]
  | S n' => Attempt :: Wait :: alternating n'
  end.

Definition is_rejected (o : settled) : bool :=
  match o with Rejected _ => true | Resolved _ => false end.

Definition rejected_500 (o : settled) : bool :=
  match o with
  | Rejected e => RequestHandler.is_500 (AxiosError.status e)
  | Resolved _ => false
  end.

Definition rejected_other (o : settled) : bool :=
  match o with
  | Rejected e => negb (RequestHandler.is_500 (AxiosError.status e))
  | Resolved _ => false
  end.

(** The timer armed after the failed attempt of iteration [i] on a 500:
    [delay(waitTime / 1000)] with [waitTime = backoffMs * Math.pow(1.5, i)],
    each operation rounded to binary64. *)
Definition backoff_timer (env : Env) (backoffMs : float) (i : nat) : float :=
  (backoffMs * Math_pow env 1.5 i / 1000 * 1000)%float.

(** [x] multiplied into 1 [n] times: the exact power as long as every
    product is representable. *)
Fixpoint float_power (x : float) (n : nat) : float :=
  match n with
  | O => 1%float
  | S n' => (x * float_power x n')%float
  end.

(** The real number a finite float stands for. *)
Definition real_of (x : float) : option Q :=
  match Prim2SF x with
  | S754_zero _ => Some 0%Q
  | S754_finite negative m e =>
      Some (Qred ((if negative then -1 else 1) * inject_Z (Zpos m) * Qpower 2 e))%Q
  | S754_infinity _ | S754_nan => None
  end.

(** What one call of the executor can do, whatever the transport does:
    hand over the first response axios resolves with, every earlier attempt
    having been rejected and followed by a wait, or give up after [budget]
    rejected attempts. *)
Inductive verdict (config : Config.t) (budget : nat) :
    res (option Response.t) -> trace -> Prop :=
| Delivered (response : Response.t) (t : trace) (failed : list settled) :
    attempts t = failed ++ [Resolved response] ->
    Forall (fun o => is_rejected o = true) failed ->
    length failed < budget ->
    rhythm t = alternating (S (length failed)) ->
    Config.validateStatus config (Response.status response) = true ->
    verdict config budget (Ok (Some response)) t
| Exhausted (t : trace) :
    length (attempts t) = budget ->
    Forall (fun o => is_rejected o = true) (attempts t) ->
    rhythm t = alternating budget ->
    verdict config budget (Ok None) t.

(** ** The wallet session *)

Definition nl : string := String "010"%char EmptyString.
Definition dq : string := String "034"%char EmptyString.

(** A string in a boolean position. *)
Definition nonempty (s : string) : bool := negb (s =? "")%string.

(** [proxy] in a boolean position ([null] is [None]). *)
Definition given (proxy : option string) : bool :=
  match proxy with
  | Some p => nonempty p
  | None => false
  end.

(** [x || fallback] on a nullable string *)
Definition or_else (x : option string) (fallback : string) : string :=
  match x with
  | Some s => if nonempty s then s else fallback
  | None => fallback
  end.

(** [new HttpsProxyAgent(uri)] *)
Definition HttpsProxyAgent_new (env : Env) (uri : string) : M agent :=
  if HttpsProxyAgent_accepts env uri then ret (HttpsProxyAgent uri)
  else throw (JS.LibraryError "new HttpsProxyAgent").

(** [new SocksProxyAgent(uri)] *)
Definition SocksProxyAgent_new (env : Env) (uri : string) : M agent :=
  if SocksProxyAgent_accepts env uri then ret (SocksProxyAgent uri)
  else throw (JS.LibraryError "new SocksProxyAgent").

Definition newAgent (env : Env) (proxy : option string) : M (option agent) :=
  match proxy with
  | Some p =>
      if nonempty p then
        if startsWith p "http://" then
          a <- HttpsProxyAgent_new env p;; ret (Some a)
        else if startsWith p "socks4://" || startsWith p "socks5://" then
          a <- SocksProxyAgent_new env p;; ret (Some a)
        else
          logger.warn ("不支持的代理类型: " ++ p) (JS.Str "");;
          ret None
      else ret None
  | None => ret None
  end.

(** [Date.now()] *)
Definition Date_now (env : Env) : M Z := fun h => (Ok (now env h), []).

(** [await wallet.signMessage(message)] *)
Definition sign (env : Env) (w : Wallet.t) (message : string) : M string :=
  fun _ =>
    match signMessage env w message with
    | Some signature => (Ok signature, [EvSign w message])
    | None => (Throw (JS.LibraryError "signMessage"), [EvSign w message])
    end.

(** [Wallet.createRandom()] *)
Definition Wallet_createRandom (env : Env) : M Wallet.t :=
  fun h => (Ok (createRandom env h), []).

(** *** The pattern [/after\s+([^!]+)!/] *)

(** The leading white-space characters of [s], and what follows them. *)
Definition span_space (s : string) : list string * string :=
  leading white_space (String.length s) s.

(** The characters before the first ['!'], when there is one. *)
Fixpoint until_bang (s : string) : option string :=
  match s with
  | EmptyString => None
  | String c s' =>
      if Ascii.eqb c "!"%char then Some EmptyString
      else option_map (String c) (until_bang s')
  end.

(** Group 1 of a match that starts right after an occurrence of "after":
    [\s+] takes the white space, giving one character back when the group
    would otherwise be empty. *)
Definition group_after (r : string) : option string :=
  let (ws, rest) := span_space r in
  match ws with
  | [] => None
  | _ :: more =>
      match until_bang rest with
      | None => None
      | Some EmptyString =>
          match more with
          | [] => None
          | _ :: _ => Some (last ws EmptyString)
          end
      | Some g => Some g
      end
  end.

(** [s.match(/after\s+([^!]+)!/)]: group 1 of the leftmost match. *)
Fixpoint match_after (s : string) : option string :=
  let here :=
    match strip_prefix "after" s with
    | Some r => group_after r
    | None => None
    end in
  match here with
  | Some g => Some g
  | None =>
      match s with
      | EmptyString => None
      | String _ s' => match_after s'
      end
  end.

(** [v.match(re)] on a value read from the body: only strings have the
    method; on anything else the call is a TypeError. *)
Definition String_match (v : JS.value) : M (option string) :=
  match v with
  | JS.Str s => ret (match_after s)
  | _ => throw JS.TypeError
  end.

(** [v.k] as a step that can throw *)
Definition prop (v : JS.value) (k : string) : M JS.value :=
  match JS.get v k with
  | Some x => ret x
  | None => throw JS.TypeError
  end.

Module LayerEdgeConnection.

(** The per-call [config] argument of [makeRequest], as the seven callers
    give it: a payload and headers, or neither.  (A config with other
    keys, which the spread would let override the session's settings, is
    never passed.) *)
Record extra : Type := mkExtra {
  x_data : option JS.value;
  x_headers : option headers_t;
}.
Definition no_extra : extra := mkExtra None None.

Record axiosConfig_t : Type := mkAxios {
  a_httpsAgent : option agent;
  a_timeout : Z;
  a_headers : headers_t;
  a_validateStatus : Z -> bool;
}.

Record t : Type := mk {
  refCode : string;
  proxy : option string;
  retryCount : nat;
  headers : headers_t;
  axiosConfig : axiosConfig_t;
  wallet : Wallet.t;
}.

Definition default_refCode : string := "knYyWnsE".

Definition default_headers : headers_t :=
  [ ("Accept", "application/json, text/plain, */*");
    ("Accept-Encoding", "gzip, deflate, br");
    ("Accept-Language", "en-US,en;q=0.9");
    ("Origin", "https://layeredge.io");
    ("Referer", "https://layeredge.io/");
    ("Sec-Fetch-Dest", "empty");
    ("Sec-Fetch-Mode", "cors");
    ("Sec-Fetch-Site", "same-site");
    ("User-Agent", "Mozilla/5.0 (Windows NT 10.0; Win64; x64) AppleWebKit/537.36 (KHTML, like Gecko) Chrome/121.0.0.0 Safari/537.36");
    ("sec-ch-ua", (dq ++ "Not A(Brand" ++ dq ++ ";v=" ++ dq ++ "99" ++ dq ++ ", "
                   ++ dq ++ "Google Chrome" ++ dq ++ ";v=" ++ dq ++ "121" ++ dq ++ ", "
                   ++ dq ++ "Chromium" ++ dq ++ ";v=" ++ dq ++ "121" ++ dq)%string);
    ("sec-ch-ua-mobile", "?0");
    ("sec-ch-ua-platform", (dq ++ "Windows" ++ dq)%string) ].

(** [validateStatus: (status) => status < 500] *)
Definition validateStatus (status : Z) : bool := (status <? 500)%Z.

(** [constructor(proxy = null, privateKey = null, refCode = "knYyWnsE")] *)
Definition new (env : Env) (proxy : option string) (privateKey : option string)
    (refCode : string) : M t :=
  httpsAgent <- (if given proxy then newAgent env proxy else ret None);;
  let axiosConfig := mkAxios httpsAgent 60000 default_headers validateStatus in
  wallet <- (match privateKey with
             | Some key =>
                 if nonempty key then
                   match wallet_of_key env key with
                   | Some w => ret w
                   | None => throw (JS.LibraryError "new Wallet")
                   end
                 else Wallet_createRandom env
             | None => Wallet_createRandom env
             end);;
  logger.verbose "初始化 LayerEdge 连接"
    (JS.Str ("钱包: " ++ Wallet.address wallet ++ nl ++ "代理: " ++ or_else proxy "无"));;
  ret (mk refCode proxy 30 default_headers axiosConfig wallet).

(** [{ method, url, ...this.axiosConfig, ...config,
       headers: { ...this.headers, ...(config.headers || {}) } }] *)
Definition finalConfig (this : t) (method url : string) (config : extra) : Config.t :=
  Config.mk method url
    (a_httpsAgent (axiosConfig this))
    (a_timeout (axiosConfig this))
    (spread (headers this)
            (match x_headers config with Some hs => hs | None => [] end))
    (a_validateStatus (axiosConfig this))
    (x_data config).

Definition makeRequest (env : Env) (this : t) (method url : string)
    (config : extra) : M (option Response.t) :=
  RequestHandler.makeRequest env (finalConfig this method url config)
    (retryCount this) RequestHandler.default_backoffMs.

(** [response && response.data]: the body, when both are truthy. *)
Definition body (response : option Response.t) : option JS.value :=
  match response with
  | Some r => if JS.truthy (Response.data r) then Some (Response.data r) else None
  | None => None
  end.

Definition checkInvite (env : Env) (this : t) : M bool :=
  let inviteData := JS.Obj [("invite_code", JS.Str (refCode this))] in
  response <- makeRequest env this "post"
    "https://referralapi.layeredge.io/api/referral/verify-referral-code"
    (mkExtra (Some inviteData) None);;
  match body response with
  | Some data =>
      inner <- prop data "data";;
      valid <- prop inner "valid";;
      if JS.is_true valid then
        logger.info "邀请码验证成功" data;; ret true
      else
        logger.error "邀请码验证失败" (JS.Str "");; ret false
  | None => logger.error "邀请码验证失败" (JS.Str "");; ret false
  end.

Definition registerWallet (env : Env) (this : t) : M bool :=
  let registerData := JS.Obj [("walletAddress", JS.Str (Wallet.address (wallet this)))] in
  response <- makeRequest env this "post"
    ("https://referralapi.layeredge.io/api/referral/register-wallet/" ++ refCode this)
    (mkExtra (Some registerData) None);;
  match body response with
  | Some data => logger.info "钱包注册成功" data;; ret true
  | None => logger.error "钱包注册失败" (JS.Str "");; ret false
  end.

Definition connectNode (env : Env) (this : t) : M bool :=
  timestamp <- Date_now env;;
  let message := ("Node activation request for " ++ Wallet.address (wallet this)
                  ++ " at " ++ string_of_Z timestamp)%string in
  signature <- sign env (wallet this) message;;
  let dataSign := JS.Obj [("sign", JS.Str signature);
                          ("timestamp", JS.Num (inject_Z timestamp))] in
  let config := mkExtra (Some dataSign) (Some [("Content-Type", "application/json")]) in
  response <- makeRequest env this "post"
    ("https://referralapi.layeredge.io/api/light-node/node-action/"
       ++ Wallet.address (wallet this) ++ "/start")
    config;;
  match body response with
  | Some data =>
      if JS.eq_str (JS.get_opt data "message") "node action executed successfully" then
        logger.info "节点连接成功" data;; ret true
      else
        logger.info "节点连接失败" (JS.Str "");; ret false
  | None => logger.info "节点连接失败" (JS.Str "");; ret false
  end.

Definition stopNode (env : Env) (this : t) : M bool :=
  timestamp <- Date_now env;;
  let message := ("Node deactivation request for " ++ Wallet.address (wallet this)
                  ++ " at " ++ string_of_Z timestamp)%string in
  signature <- sign env (wallet this) message;;
  let dataSign := JS.Obj [("sign", JS.Str signature);
                          ("timestamp", JS.Num (inject_Z timestamp))] in
  response <- makeRequest env this "post"
    ("https://referralapi.layeredge.io/api/light-node/node-action/"
       ++ Wallet.address (wallet this) ++ "/stop")
    (mkExtra (Some dataSign) None);;
  match body response with
  | Some data => logger.info "停止节点并领取积分结果:" data;; ret true
  | None => logger.error "停止节点并领取积分失败" (JS.Str "");; ret false
  end.

Definition dailyCheckIn (env : Env) (this : t) : M bool :=
  try_catch
    (timestamp <- Date_now env;;
     let message := ("I am claiming my daily node point for "
                     ++ Wallet.address (wallet this) ++ " at " ++ string_of_Z timestamp)%string in
     signature <- sign env (wallet this) message;;
     let dataSign := JS.Obj [("sign", JS.Str signature);
                             ("timestamp", JS.Num (inject_Z timestamp));
                             ("walletAddress", JS.Str (Wallet.address (wallet this)))] in
     let config := mkExtra (Some dataSign) (Some [("Content-Type", "application/json")]) in
     response <- makeRequest env this "post"
       "https://referralapi.layeredge.io/api/light-node/claim-node-points"
       config;;
     match body response with
     | Some data =>
         let statusCode := JS.get_opt data "statusCode" in
         if JS.truthy statusCode && JS.eq_num statusCode 405 then
           cooldownMatch <- String_match (JS.get_opt data "message");;
           let cooldownTime :=
             match cooldownMatch with
             | Some g => trim g
             | None => "未知时间"
             end in
           logger.info "⚠️ 每日签到已完成" (JS.Str ("请在 " ++ cooldownTime ++ " 后再来"));;
           ret true
         else
           logger.info "✅ 每日签到成功" data;; ret true
     | None => logger.error "❌ 每日签到失败" (JS.Str "");; ret false
     end)
    (fun _ => logger.error "每日签到过程中出错:" (JS.Str "");; ret false).

Definition checkNodeStatus (env : Env) (this : t) : M bool :=
  response <- makeRequest env this "get"
    ("https://referralapi.layeredge.io/api/light-node/node-status/"
       ++ Wallet.address (wallet this))
    no_extra;;
  match body response with
  | Some data =>
      inner <- prop data "data";;
      startTimestamp <- prop inner "startTimestamp";;
      if negb (JS.is_null startTimestamp) then
        logger.info "节点运行状态" data;; ret true
      else
        logger.error "节点未运行，尝试启动节点..." (JS.Str "");; ret false
  | None => logger.error "节点未运行，尝试启动节点..." (JS.Str "");; ret false
  end.

Definition checkNodePoints (env : Env) (this : t) : M bool :=
  response <- makeRequest env this "get"
    ("https://referralapi.layeredge.io/api/referral/wallet-details/"
       ++ Wallet.address (wallet this))
    no_extra;;
  match body response with
  | Some data =>
      logger.info (Wallet.address (wallet this) ++ " 总积分:")
        (JS.or (JS.get_opt (JS.get_opt data "data") "nodePoints") (JS.Num 0));;
      ret true
  | None => logger.error "检查总积分失败..." (JS.Str "");; ret false
  end.

End LayerEdgeConnection.

(** ** The orchestration loop *)

(** [readFile(pathFile)]: the non-empty trimmed lines; [[]] on failure. *)
Definition readFile (env : Env) (pathFile : string) : M (list string) :=
  match fs_readFile env pathFile with
  | Some datas => ret (filter nonempty (map trim (split_lines datas)))
  | None =>
      logger.error "读取文件错误: ${error.message}" (JS.Str "");;
      ret []
  end.

Definition readWallets (env : Env) : M (list Entry.t) :=
  match wallets_json env with
  | Parsed wallets => ret wallets
  | Missing =>
      logger.info "wallets.json中未找到钱包" (JS.Str "");;
      ret []
  | Unreadable => throw (JS.LibraryError "fs")
  end.

(** [proxies[i % proxies.length] || null]: with no proxies the index is
    NaN and the element undefined. *)
Definition select_proxy (proxies : list string) (i : nat) : option string :=
  match length proxies with
  | O => None
  | S _ =>
      match nth_error proxies (i mod length proxies) with
      | Some p => if nonempty p then Some p else None
      | None => None
      end
  end.

(** The methods [run] calls on the object it constructs. *)
Record Session : Type := {
  dailyCheckIn : M bool;
  checkNodeStatus : M bool;
  stopNode : M bool;
  connectNode : M bool;
  checkNodePoints : M bool;
}.

(** [new LayerEdgeConnection(proxy, privateKey)] as [run] sees it. *)
Definition Connection : Type := option string -> option string -> M Session.

(** The class of [src/main.js]. *)
Definition LayerEdge (env : Env) : Connection :=
  fun proxy privateKey =>
    this <- LayerEdgeConnection.new env proxy privateKey LayerEdgeConnection.default_refCode;;
    ret {| dailyCheckIn := LayerEdgeConnection.dailyCheckIn env this;
           checkNodeStatus := LayerEdgeConnection.checkNodeStatus env this;
           stopNode := LayerEdgeConnection.stopNode env this;
           connectNode := LayerEdgeConnection.connectNode env this;
           checkNodePoints := LayerEdgeConnection.checkNodePoints env this |}.

(** The body of the [for] loop over the wallets, at index [i]. *)
Definition process_wallet (C : Connection) (proxies : list string)
    (total i : nat) (wallet : Entry.t) : M unit :=
  let proxy := select_proxy proxies i in
  let address := Entry.address wallet in
  let privateKey := Entry.privateKey wallet in
  try_catch
    (logger.verbose
       ("处理钱包 " ++ string_of_nat (i + 1) ++ "/" ++ string_of_nat total)
       (JS.Str address);;
     socket <- C proxy privateKey;;
     logger.progress address "开始处理钱包" "start";;
     logger.info "钱包详情"
       (JS.Str ("地址: " ++ address ++ ", 代理: " ++ or_else proxy "无代理"));;
     logger.progress address "执行每日签到" "processing";;
     _ <- dailyCheckIn socket;;
     logger.progress address "检查节点状态" "processing";;
     isRunning <- checkNodeStatus socket;;
     (if isRunning : bool then
        logger.progress address "领取节点积分" "processing";;
        _ <- stopNode socket;;
        ret tt
      else ret tt);;
     logger.progress address "重新连接节点" "processing";;
     _ <- connectNode socket;;
     logger.progress address "检查节点积分" "processing";;
     _ <- checkNodePoints socket;;
     logger.progress address "钱包处理完成" "success")
    (fun _ =>
       logger.error ("处理钱包 " ++ address ++ " 失败") (JS.Str "");;
       logger.progress address "钱包处理失败" "failed";;
       delay 5).

(** [for (let i = 0; i < wallets.length; i++)], from index [i] on. *)
Fixpoint for_wallets (C : Connection) (proxies : list string) (total i : nat)
    (rest : list Entry.t) : M unit :=
  match rest with
  | [] => ret tt
  | wallet :: rest' =>
      process_wallet C proxies total i wallet;;
      for_wallets C proxies total (S i) rest'
  end.

(** How an observation of the process ends: it called [process.exit], or
    it is still inside [while (true)] after the cycles observed. *)
Inductive status : Type :=
| Exited (code : Z)
| Cycling.

(** The first [n] turns of [while (true)]. *)
Fixpoint cycles (C : Connection) (proxies : list string) (wallets : list Entry.t)
    (n : nat) : M status :=
  match n with
  | O => ret Cycling
  | S n' =>
      for_wallets C proxies (length wallets) 0 wallets;;
      logger.warn "循环完成" (JS.Str "等待1小时后开始下一轮...");;
      delay (60 * 60);;
      cycles C proxies wallets n'
  end.

(** [run()], observed for [n] cycles. *)
Definition run (env : Env) (C : Connection) (n : nat) : M status :=
  logger.info "启动 Layer Edge 自动机器人" (JS.Str "初始化中...");;
  try_catch
    (proxies <- readFile env "proxy.txt";;
     wallets <- readWallets env;;
     (if length proxies =? 0 then
        logger.warn "未找到代理" (JS.Str "将不使用代理运行")
      else ret tt);;
     (if length wallets =? 0 then throw (JS.Error "未配置钱包") else ret tt);;
     logger.info "配置已加载"
       (JS.Str ("钱包数量: " ++ string_of_nat (length wallets)
                ++ ", 代理数量: " ++ string_of_nat (length proxies)));;
     cycles C proxies wallets n)
    (fun _ =>
       logger.error "发生致命错误" (JS.Str "");;
       emit (EvExit 1);;
       ret (Exited 1)).

(** ** Observing the loop with a stand-in session

    [run] only constructs the session and calls five of its methods.  To
    state which calls the loop makes, in which order and with which
    arguments, the class is replaced by a stand-in whose constructor and
    methods do nothing but record the call and return what a script says. *)

Definition nullable (x : option string) : JS.value :=
  match x with
  | Some s => JS.Str s
  | None => JS.Null
  end.

Inductive call : Type :=
| Construct (proxy privateKey : option string)
| Method (name : string) (returned : bool).

Definition event_of_call (c : call) : event :=
  match c with
  | Construct proxy privateKey => EvCall "constructor" [nullable proxy; nullable privateKey]
  | Method name returned => EvCall name [JS.Bool returned]
  end.

(** What each method returns, as a function of its name and of all that
    happened before. *)
Definition script : Type := string -> trace -> bool.

Definition stand_in_method (answer : script) (name : string) : M bool :=
  fun h => (Ok (answer name h), [event_of_call (Method name (answer name h))]).

Definition StandIn (answer : script) : Connection :=
  fun proxy privateKey =>
    emit (event_of_call (Construct proxy privateKey));;
    ret {| dailyCheckIn := stand_in_method answer "dailyCheckIn";
           checkNodeStatus := stand_in_method answer "checkNodeStatus";
           stopNode := stand_in_method answer "stopNode";
           connectNode := stand_in_method answer "connectNode";
           checkNodePoints := stand_in_method answer "checkNodePoints" |}.

(** The recorded calls, oldest first. *)
Fixpoint calls (t : trace) : list event :=
  match t with
  | [] => []
  | EvCall name args :: t' => EvCall name args :: calls t'
  | _ :: t' => calls t'
  end.

(** The proxies the constructor was given, oldest first. *)
Fixpoint proxies_given (t : trace) : list JS.value :=
  match t with
  | [] => []
  | EvCall name (proxy :: _) :: t' =>
      if (name =? "constructor")%string then proxy :: proxies_given t'
      else proxies_given t'
  | _ :: t' => proxies_given t'
  end.

(** The calls of one wallet's sequence, given what the methods returned. *)
Definition sequence (proxy privateKey : option string)
    (checkedIn running stopped connected counted : bool) : list call :=
  [Construct proxy privateKey;
   Method "dailyCheckIn" checkedIn;
   Method "checkNodeStatus" running]
  ++ (if running then [Method "stopNode" stopped] else [])
  ++ [Method "connectNode" connected;
      Method "checkNodePoints" counted].

(** The calls of one pass over the wallets, from index [i] on. *)
Inductive pass (proxies : list string) : nat -> list Entry.t -> list event -> Prop :=
| pass_done (i : nat) : pass proxies i [] []
| pass_wallet (i : nat) (wallet : Entry.t) (rest : list Entry.t)
    (checkedIn running stopped connected counted : bool) (cs : list event) :
    pass proxies (S i) rest cs ->
    pass proxies i (wallet :: rest)
      (map event_of_call
         (sequence (select_proxy proxies i) (Entry.privateKey wallet)
            checkedIn running stopped connected counted) ++ cs).

(** The calls of [n] cycles. *)
Inductive passes (proxies : list string) (wallets : list Entry.t) : nat -> list event -> Prop :=
| passes_none : passes proxies wallets 0 []
| passes_more (n : nat) (cs1 cs2 : list event) :
    pass proxies 0 wallets cs1 ->
    passes proxies wallets n cs2 ->
    passes proxies wallets (S n) (cs1 ++ cs2).

(** *** A stand-in whose constructor and methods may throw

    The class of the program throws from its constructor when the wallet
    library rejects the key or the proxy, and from an operation that has
    no handler of its own.  [Scripted] stands for any such class: a script
    decides, call by call, whether the constructor returns and whether a
    method returns a boolean or throws. *)

Definition behaviour : Type := string -> trace -> res bool.

(** The record of a method call: the value returned, or none when the
    call threw. *)
Definition event_of_outcome (name : string) (outcome : res bool) : event :=
  match outcome with
  | Ok returned => event_of_call (Method name returned)
  | Throw _ => EvCall name []
  end.

Definition scripted_method (behave : behaviour) (name : string) : M bool :=
  fun h => (behave name h, [event_of_outcome name (behave name h)]).

Definition Scripted (behave : behaviour) : Connection :=
  fun proxy privateKey h =>
    (match behave "constructor" h with
     | Ok _ =>
         Ok {| dailyCheckIn := scripted_method behave "dailyCheckIn";
               checkNodeStatus := scripted_method behave "checkNodeStatus";
               stopNode := scripted_method behave "stopNode";
               connectNode := scripted_method behave "connectNode";
               checkNodePoints := scripted_method behave "checkNodePoints" |}
     | Throw e => Throw e
     end,
     [event_of_call (Construct proxy privateKey)]).






Definition is_log (e : event) : Prop :=
  match e with
  | EvLog _ _ _ => True
  | _ => False
  end.

(** Every event of a computation satisfies [P], whatever came before. *)
Definition emits {A} (P : event -> Prop) (m : M A) : Prop :=
  forall h, Forall P (snd (m h)).

(** The computation never throws. *)
Definition total {A} (m : M A) : Prop :=
  forall h, exists a, fst (m h) = Ok a.

(** ** Reading what the operations are given *)

(** [data.data.startTimestamp] on a body; [None] when reading it is a
    TypeError (no [data] object to read from). *)
Definition startTimestamp_of (data : JS.value) : option JS.value :=
  match JS.get data "data" with
  | Some inner => JS.get inner "startTimestamp"
  | None => None
  end.

(** [data.data.valid] likewise. *)
Definition valid_of (data : JS.value) : option JS.value :=
  match JS.get data "data" with
  | Some inner => JS.get inner "valid"
  | None => None
  end.

(** The request [checkNodeStatus] makes. *)
Definition status_request (env : Env) (this : LayerEdgeConnection.t) : M (option Response.t) :=
  LayerEdgeConnection.makeRequest env this "get"
    ("https://referralapi.layeredge.io/api/light-node/node-status/"
       ++ Wallet.address (LayerEdgeConnection.wallet this))
    LayerEdgeConnection.no_extra.

(** The message [dailyCheckIn] signs at time [timestamp]. *)
Definition claim_message (this : LayerEdgeConnection.t) (timestamp : Z) : string :=
  "I am claiming my daily node point for "
    ++ Wallet.address (LayerEdgeConnection.wallet this) ++ " at " ++ string_of_Z timestamp.

(** The request [dailyCheckIn] makes once the message is signed. *)
Definition claim_request (env : Env) (this : LayerEdgeConnection.t)
    (timestamp : Z) (signature : string) : M (option Response.t) :=
  LayerEdgeConnection.makeRequest env this "post"
    "https://referralapi.layeredge.io/api/light-node/claim-node-points"
    (LayerEdgeConnection.mkExtra
       (Some (JS.Obj [("sign", JS.Str signature);
                      ("timestamp", JS.Num (inject_Z timestamp));
                      ("walletAddress", JS.Str (Wallet.address (LayerEdgeConnection.wallet this)))]))
       (Some [("Content-Type", "application/json")])).

(** [data.statusCode && data.statusCode === 405] *)
Definition already_claimed (data : JS.value) : bool :=
  JS.truthy (JS.get_opt data "statusCode") && JS.eq_num (JS.get_opt data "statusCode") 405.

(** The cooldown shown for a message text. *)
Definition cooldownTime (text : string) : string :=
  match match_after text with
  | Some g => trim g
  | None => "未知时间"
  end.

(** ** Whose wallet a session acts for *)

(** The message is signed by [w], and names [w]'s address. *)
Definition signed_as (w w' : Wallet.t) (message : string) : Prop :=
  w' = w /\
  exists purpose timestamp,
    message = (purpose ++ Wallet.address w ++ " at " ++ string_of_Z timestamp)%string.

(** The requests of the remote API, as made for wallet [w]: the address in
    the path or in the payload is [w]'s, and a signature in the payload is
    [w]'s signature of a message naming [w]'s address.  Only the referral
    code check carries no identity. *)
Inductive sent_for (env : Env) (w : Wallet.t) (refCode : string) : Config.t -> Prop :=
| verify_referral_code (config : Config.t) :
    Config.url config = "https://referralapi.layeredge.io/api/referral/verify-referral-code" ->
    Config.data config = Some (JS.Obj [("invite_code", JS.Str refCode)]) ->
    sent_for env w refCode config
| register_wallet (config : Config.t) :
    Config.url config
      = ("https://referralapi.layeredge.io/api/referral/register-wallet/" ++ refCode)%string ->
    Config.data config = Some (JS.Obj [("walletAddress", JS.Str (Wallet.address w))]) ->
    sent_for env w refCode config
| node_action (config : Config.t) (purpose action : string) (timestamp : Z)
    (signature : string) :
    Config.url config
      = ("https://referralapi.layeredge.io/api/light-node/node-action/"
           ++ Wallet.address w ++ action)%string ->
    signMessage env w (purpose ++ Wallet.address w ++ " at " ++ string_of_Z timestamp)
      = Some signature ->
    Config.data config
      = Some (JS.Obj [("sign", JS.Str signature);
                      ("timestamp", JS.Num (inject_Z timestamp))]) ->
    sent_for env w refCode config
| claim_node_points (config : Config.t) (purpose : string) (timestamp : Z)
    (signature : string) :
    Config.url config = "https://referralapi.layeredge.io/api/light-node/claim-node-points" ->
    signMessage env w (purpose ++ Wallet.address w ++ " at " ++ string_of_Z timestamp)
      = Some signature ->
    Config.data config
      = Some (JS.Obj [("sign", JS.Str signature);
                      ("timestamp", JS.Num (inject_Z timestamp));
                      ("walletAddress", JS.Str (Wallet.address w))]) ->
    sent_for env w refCode config
| node_status (config : Config.t) :
    Config.url config
      = ("https://referralapi.layeredge.io/api/light-node/node-status/"
           ++ Wallet.address w)%string ->
    sent_for env w refCode config
| wallet_details (config : Config.t) :
    Config.url config
      = ("https://referralapi.layeredge.io/api/referral/wallet-details/"
           ++ Wallet.address w)%string ->
    sent_for env w refCode config.


(** No console line at level [error]. *)
Definition quiet (e : event) : Prop :=
  match e with
  | EvLog error _ _ => False
  | EvLog _ _ _ => True
  | _ => False
  end.

(** The operations of a session. *)
Definition operations (env : Env) (this : LayerEdgeConnection.t) : list (M bool) :=
  [LayerEdgeConnection.checkInvite env this;
   LayerEdgeConnection.registerWallet env this;
   LayerEdgeConnection.connectNode env this;
   LayerEdgeConnection.stopNode env this;
   LayerEdgeConnection.dailyCheckIn env this;
   LayerEdgeConnection.checkNodeStatus env this;
   LayerEdgeConnection.checkNodePoints env this].





(** An event of one executor call for [config]. *)
Definition of_call (config : Config.t) (e : event) : Prop :=
  match e with
  | EvAxios c _ => c = config
  | EvLog _ _ _ | EvTimeout _ => True
  | _ => False
  end.

(** ** More readings of traces and inputs *)

(** The timer armed after a rejected attempt of iteration [i]: the growing
    backoff on a 500, two seconds on anything else. *)
Definition wait_after (env : Env) (backoffMs : float) (i : nat) (o : settled) : float :=
  match o with
  | Rejected e =>
      if RequestHandler.is_500 (AxiosError.status e) then backoff_timer env backoffMs i
      else 2000%float
  | Resolved _ => 0%float
  end.

(** The timers that follow the attempts [outcomes], the first of which is
    iteration [i]. *)
Fixpoint schedule (env : Env) (backoffMs : float) (i : nat) (outcomes : list settled)
    : list float :=
  match outcomes with
  | [] => []
  | o :: rest => wait_after env backoffMs i o :: schedule env backoffMs (S i) rest
  end.

(** [s] neither starts nor ends with a white-space character. *)
Definition no_space_at_ends (s : string) : Prop :=
  (forall w rest, In w white_space -> s <> (w ++ rest)%string) /\
  (forall w front, In w white_space -> s <> (front ++ w)%string).

(** [s] contains a ['!']. *)
Fixpoint has_bang (s : string) : bool :=
  match s with
  | EmptyString => false
  | String c s' => Ascii.eqb c "!"%char || has_bang s'
  end.

(** The schemes [newAgent] builds an agent for. *)
Definition supported (p : string) : bool :=
  startsWith p "http://" || startsWith p "socks4://" || startsWith p "socks5://".

(** The value of header [name] in a header object. *)
Fixpoint header (name : string) (hs : headers_t) : option string :=
  match hs with
  | [] => None
  | (k, v) :: rest => if (k =? name)%string then Some v else header name rest
  end.

(** The request [checkInvite] makes. *)
Definition invite_request (env : Env) (this : LayerEdgeConnection.t) : M (option Response.t) :=
  LayerEdgeConnection.makeRequest env this "post"
    "https://referralapi.layeredge.io/api/referral/verify-referral-code"
    (LayerEdgeConnection.mkExtra
       (Some (JS.Obj [("invite_code", JS.Str (LayerEdgeConnection.refCode this))]))
       None).

(** The request [registerWallet] makes. *)
Definition register_request (env : Env) (this : LayerEdgeConnection.t) : M (option Response.t) :=
  LayerEdgeConnection.makeRequest env this "post"
    ("https://referralapi.layeredge.io/api/referral/register-wallet/"
       ++ LayerEdgeConnection.refCode this)
    (LayerEdgeConnection.mkExtra
       (Some (JS.Obj [("walletAddress",
                       JS.Str (Wallet.address (LayerEdgeConnection.wallet this)))]))
       None).

(** The request [checkNodePoints] makes. *)
Definition points_request (env : Env) (this : LayerEdgeConnection.t) : M (option Response.t) :=
  LayerEdgeConnection.makeRequest env this "get"
    ("https://referralapi.layeredge.io/api/referral/wallet-details/"
       ++ Wallet.address (LayerEdgeConnection.wallet this))
    LayerEdgeConnection.no_extra.

(** The message [connectNode] ([purpose] "Node activation request for ")
    or [stopNode] ("Node deactivation request for ") signs at [timestamp]. *)
Definition node_message (purpose : string) (this : LayerEdgeConnection.t)
    (timestamp : Z) : string :=
  purpose ++ Wallet.address (LayerEdgeConnection.wallet this)
    ++ " at " ++ string_of_Z timestamp.

(** The request [connectNode] ([action] "/start", with a content type) or
    [stopNode] ("/stop", without) makes once the message is signed. *)
Definition node_request (env : Env) (this : LayerEdgeConnection.t) (action : string)
    (extra_headers : option headers_t) (timestamp : Z) (signature : string)
    : M (option Response.t) :=
  LayerEdgeConnection.makeRequest env this "post"
    ("https://referralapi.layeredge.io/api/light-node/node-action/"
       ++ Wallet.address (LayerEdgeConnection.wallet this) ++ action)
    (LayerEdgeConnection.mkExtra
       (Some (JS.Obj [("sign", JS.Str signature);
                      ("timestamp", JS.Num (inject_Z timestamp))]))
       extra_headers).

(** A truthy body came back. *)
Definition has_body (response : option Response.t) : bool :=
  match LayerEdgeConnection.body response with
  | Some _ => true
  | None => false
  end.

(** An event a session [this] may cause: as [on_behalf_of] its wallet, and
    every request is one [this] builds with [finalConfig]. *)
Definition by_session (env : Env) (this : LayerEdgeConnection.t) (e : event) : Prop :=
  match e with
  | EvAxios config _ =>
      (exists method url extra,
         config = LayerEdgeConnection.finalConfig this method url extra) /\
      sent_for env (LayerEdgeConnection.wallet this) (LayerEdgeConnection.refCode this) config
  | EvSign w' message => signed_as (LayerEdgeConnection.wallet this) w' message
  | EvLog _ _ _ | EvTimeout _ => True
  | EvProgress _ _ _ | EvCall _ _ | EvExit _ => False
  end.

(** A request as the session [this] sends it: through the session's
    agent, with its timeout and its status check, and with every header of
    the session kept. *)
Definition session_config (this : LayerEdgeConnection.t) (config : Config.t) : Prop :=
  Config.httpsAgent config
    = LayerEdgeConnection.a_httpsAgent (LayerEdgeConnection.axiosConfig this) /\
  Config.timeout config
    = LayerEdgeConnection.a_timeout (LayerEdgeConnection.axiosConfig this) /\
  (forall status,
     Config.validateStatus config status
     = LayerEdgeConnection.a_validateStatus (LayerEdgeConnection.axiosConfig this) status) /\
  (forall name value,
     header name (LayerEdgeConnection.headers this) = Some value ->
     name <> "Content-Type" ->
     header name (Config.headers config) = Some value).

Definition as_session (this : LayerEdgeConnection.t) (e : event) : Prop :=
  match e with
  | EvAxios config _ => session_config this config
  | _ => True
  end.

(** A request with the fixed settings of every session: the 60 s timeout,
    statuses below 500 accepted, the browser-like default headers. *)
Definition standard_request (e : event) : Prop :=
  match e with
  | EvAxios config _ =>
      Config.timeout config = 60000%Z /\
      (forall status, Config.validateStatus config status = (status <? 500)%Z) /\
      (forall name value,
         header name LayerEdgeConnection.default_headers = Some value ->
         header name (Config.headers config) = Some value)
  | _ => True
  end.

(** An event of one wallet's turn in the loop, for the wallet [w] and
    through [agent]. *)
Definition in_turn (env : Env) (w : Wallet.t) (agent : option agent) (e : event) : Prop :=
  match e with
  | EvAxios config _ =>
      Config.httpsAgent config = agent /\
      sent_for env w LayerEdgeConnection.default_refCode config
  | EvSign w' message => signed_as w w' message
  | EvLog _ _ _ | EvProgress _ _ _ | EvTimeout _ => True
  | EvCall _ _ | EvExit _ => False
  end.

(** Neither a call on a stand-in nor [process.exit]. *)
Definition benign (e : event) : Prop :=
  match e with
  | EvCall _ _ | EvExit _ => False
  | _ => True
  end.

(** ** The loop body of the second source file

    [src/unnamed/part_000] is a variant of the program whose class has no
    [dailyCheckIn]; the body of its [for] loop is the same turn without
    that step. *)

Module Variant.

Definition process_wallet (C : Connection) (proxies : list string)
    (total i : nat) (wallet : Entry.t) : M unit :=
  let proxy := select_proxy proxies i in
  let address := Entry.address wallet in
  let privateKey := Entry.privateKey wallet in
  try_catch
    (logger.verbose
       ("正在处理钱包 " ++ string_of_nat (i + 1) ++ "/" ++ string_of_nat total)
       (JS.Str address);;
     socket <- C proxy privateKey;;
     logger.progress address "钱包处理开始" "start";;
     logger.info "钱包详情"
       (JS.Str ("地址: " ++ address ++ ", 代理: " ++ or_else proxy "无代理"));;
     logger.progress address "检查节点状态" "processing";;
     isRunning <- checkNodeStatus socket;;
     (if isRunning : bool then
        logger.progress address "领取节点积分" "processing";;
        _ <- stopNode socket;;
        ret tt
      else ret tt);;
     logger.progress address "重新连接节点" "processing";;
     _ <- connectNode socket;;
     logger.progress address "检查节点积分" "processing";;
     _ <- checkNodePoints socket;;
     logger.progress address "钱包处理完成" "success")
    (fun _ =>
       logger.error ("处理钱包 " ++ address ++ " 失败") (JS.Str "");;
       logger.progress address "钱包处理失败" "failed";;
       delay 5).

End Variant.

(** ** Concrete worlds *)

Module Scenario.

(** Agent constructors that take a URI with something after its scheme. *)
Definition has_host (uri : string) : bool :=
  match index 0 "://" uri with
  | Some n => n + 3 <? String.length uri
  | None => false
  end.

(** A world whose server answers by a fixed rule, with a working wallet
    library and clock. *)
Definition world (server : Config.t -> raw_result) (files : string -> option string)
    (wallets : wallets_file) : Env :=
  {| transport := fun _ config => server config;
     now := fun _ => 1700000000000%Z;
     wallet_of_key := fun key => Some (Wallet.mk ("0x" ++ key) key);
     createRandom := fun _ => Wallet.mk "0xfresh" "fresh";
     signMessage := fun w message => Some ("signed:" ++ message)%string;
     fs_readFile := files;
     wallets_json := wallets;
     Math_pow := float_power;
     HttpsProxyAgent_accepts := has_host;
     SocksProxyAgent_accepts := has_host |}.

Definition answering (body : JS.value) (code : Z) : Env :=
  world (fun _ => Answered (Response.mk code body)) (fun _ => None) Missing.

Definition always_500 : Env := answering JS.Null 500.

Definition unreachable : Env := world (fun _ => NoAnswer) (fun _ => None) Missing.

(** A request config as a session builds it. *)
Definition ping : Config.t :=
  Config.mk "get" "https://referralapi.layeredge.io/ping" None 60000 []
    LayerEdgeConnection.validateStatus None.

(** A session as the constructor builds it for a configured key. *)
Definition session : LayerEdgeConnection.t :=
  LayerEdgeConnection.mk LayerEdgeConnection.default_refCode None 30
    LayerEdgeConnection.default_headers
    (LayerEdgeConnection.mkAxios None 60000 LayerEdgeConnection.default_headers
       LayerEdgeConnection.validateStatus)
    (Wallet.mk "0xabc" "abc").

(** A wallet library whose signer rejects. *)
Definition cannot_sign : Env :=
  {| transport := fun _ _ => Answered (Response.mk 200 (JS.Obj []));
     now := fun _ => 1700000000000%Z;
     wallet_of_key := fun key => Some (Wallet.mk ("0x" ++ key) key);
     createRandom := fun _ => Wallet.mk "0xfresh" "fresh";
     signMessage := fun _ _ => None;
     fs_readFile := fun _ => None;
     wallets_json := Missing;
     Math_pow := float_power;
     HttpsProxyAgent_accepts := has_host;
     SocksProxyAgent_accepts := has_host |}.

(** A proxy file with two usable lines and a wallet file with three
    entries, the second without a key. *)
Definition proxy_txt : string :=
  "http://10.0.0.1:8080" ++ nl ++ "  socks5://10.0.0.2:1080 " ++ nl ++ nl.

Definition three_wallets : list Entry.t :=
  [Entry.mk "0xA" (Some "a"); Entry.mk "0xB" None; Entry.mk "0xC" (Some "c")].

Definition configured (body : JS.value) : Env :=
  world (fun _ => Answered (Response.mk 200 body))
        (fun path => if (path =? "proxy.txt")%string then Some proxy_txt else None)
        (Parsed three_wallets).

(** The same wallets with no proxy file. *)
Definition without_proxies (body : JS.value) : Env :=
  world (fun _ => Answered (Response.mk 200 body)) (fun _ => None) (Parsed three_wallets).

(** A server that gives no answer to the first [failures] exchanges and
    then answers with [response]. *)
Definition flaky (failures : nat) (response : Response.t) : Env :=
  {| transport := fun h _ =>
                    if length (attempts h) <? failures then NoAnswer
                    else Answered response;
     now := fun _ => 1700000000000%Z;
     wallet_of_key := fun key => Some (Wallet.mk ("0x" ++ key) key);
     createRandom := fun _ => Wallet.mk "0xfresh" "fresh";
     signMessage := fun w message => Some ("signed:" ++ message)%string;
     fs_readFile := fun _ => None;
     wallets_json := Missing;
     Math_pow := float_power;
     HttpsProxyAgent_accepts := has_host;
     SocksProxyAgent_accepts := has_host |}.

(** A wallet library that rejects every key. *)
Definition rejecting_keys : Env :=
  {| transport := fun _ _ => Answered (Response.mk 200 (JS.Obj []));
     now := fun _ => 1700000000000%Z;
     wallet_of_key := fun _ => None;
     createRandom := fun _ => Wallet.mk "0xfresh" "fresh";
     signMessage := fun w message => Some ("signed:" ++ message)%string;
     fs_readFile := fun _ => None;
     wallets_json := Missing;
     Math_pow := float_power;
     HttpsProxyAgent_accepts := has_host;
     SocksProxyAgent_accepts := has_host |}.


(** Bodies the server may answer with. *)
Definition empty_object : JS.value := JS.Obj [].
Definition running_without_timestamp : JS.value := JS.Obj [("data", JS.Obj [])].
Definition claimed_without_message : JS.value := JS.Obj [("statusCode", JS.Num 405)].
Definition claimed_with_message : JS.value :=
  JS.Obj [("statusCode", JS.Num 405);
          ("message", JS.Str "405: Please come back after 11 hours 58 minutes!")].
Definition node_running : JS.value :=
  JS.Obj [("data", JS.Obj [("startTimestamp", JS.Num 1699999999)])].

End Scenario.

(** * Properties *)

(** ** Reading traces *)

Lemma attempts_app (t1 t2 : trace) : attempts (t1 ++ t2) = attempts t1 ++ attempts t2.
Proof. induction t1 as [|[] t1 IH]; simpl; congruence. Qed.

Lemma waits_app (t1 t2 : trace) : waits (t1 ++ t2) = waits t1 ++ waits t2.
Proof. induction t1 as [|[] t1 IH]; simpl; congruence. Qed.

Lemma rhythm_app (t1 t2 : trace) : rhythm (t1 ++ t2) = rhythm t1 ++ rhythm t2.
Proof. induction t1 as [|[] t1 IH]; simpl; congruence. Qed.

Lemma calls_app (t1 t2 : trace) : calls (t1 ++ t2) = calls t1 ++ calls t2.
Proof. induction t1 as [|[] t1 IH]; simpl; congruence. Qed.

(** ** The retry executor *)

Lemma isLastRetry_true (i retries : nat) :
  1 + i = retries -> (Z.of_nat i =? Z.of_nat retries - 1)%Z = true.
Proof. intros; apply Z.eqb_eq; lia. Qed.

Lemma isLastRetry_false (i retries n : nat) :
  S (S n) + i = retries -> (Z.of_nat i =? Z.of_nat retries - 1)%Z = false.
Proof. intros; apply Z.eqb_neq; lia. Qed.

Lemma settle_resolved (config : Config.t) (raw : raw_result) (r : Response.t) :
  settle config raw = Resolved r ->
  Config.validateStatus config (Response.status r) = true.
Proof.
  destruct raw as [r'|]; cbn; [|discriminate].
  destruct (Config.validateStatus config (Response.status r')) eqn:E; [|discriminate].
  intros [= <-]. exact E.
Qed.

Ltac unfold_js :=
  cbn -[Z.of_nat Z.sub Z.eqb PrimFloat.mul PrimFloat.div String.append string_of_nat string_of_Z];
  unfold bind, axios, logger.verbose, logger.warn, logger.error, logger.info,
    logger.log, delay, emit, ret;
  cbn -[Z.of_nat Z.sub Z.eqb PrimFloat.mul PrimFloat.div String.append string_of_nat string_of_Z].

(** Name the outcome of the exchange the goal is about, and split on it. *)
Ltac case_outcome env config :=
  match goal with
  | |- context [settle config (transport env ?hh config)] =>
      let o := fresh "o" in
      remember (settle config (transport env hh config)) as o eqn:Ho;
      destruct o as [?r|?e]
  end.

(** Use the induction hypothesis on the recursive call the goal contains. *)
Ltac use_IH IH :=
  match goal with
  | |- context [RequestHandler.loop ?env ?config ?retries ?b ?n ?i ?hh] =>
      let E := fresh "E" in
      specialize (IH i hh ltac:(lia));
      destruct (RequestHandler.loop env config retries b n i hh) as [?res ?tr] eqn:E;
      cbn [fst snd] in IH |- *
  end.

Section Executor.

Variables (env : Env) (config : Config.t) (retries : nat) (backoffMs : float).

Lemma loop_500 :
  (forall h, rejected_500 (settle config (transport env h config)) = true) ->
  forall remaining i h, remaining + i = retries ->
    let r := RequestHandler.loop env config retries backoffMs remaining i h in
    fst r = Ok None /\ rhythm (snd r) = alternating remaining /\
    Forall (fun o => rejected_500 o = true) (attempts (snd r)) /\
    length (attempts (snd r)) = remaining /\
    waits (snd r) = map (backoff_timer env backoffMs) (seq i (remaining - 1)).
Proof.
  intros H500 remaining.
  induction remaining as [|n IH]; intros i h Hi.
  - cbn. repeat split; constructor.
  - unfold_js. case_outcome env config.
    + specialize (H500 (h ++ [attempt_line config retries i])). unfold attempt_line in *.
      cbv beta in H500. rewrite <- Ho in H500. discriminate.
    + pose proof (H500 (h ++ [attempt_line config retries i])) as Hs. unfold attempt_line in *.
      cbv beta in Hs. rewrite <- Ho in Hs. cbn in Hs. rewrite Hs.
      destruct n as [|n].
      * rewrite (isLastRetry_true i retries) by lia. cbn.
        repeat split; auto.
      * rewrite (isLastRetry_false i retries n) by lia.
        use_IH IH.
        destruct IH as (R1 & R2 & R3 & R4 & R5).
        repeat split; auto.
        -- cbn. rewrite R2. reflexivity.
        -- cbn. constructor; [exact Hs|exact R3].
        -- cbn. rewrite R4. reflexivity.
        -- cbn. rewrite R5. cbn. rewrite Nat.sub_0_r. reflexivity.
Qed.

Lemma loop_other :
  (forall h, rejected_other (settle config (transport env h config)) = true) ->
  forall remaining i h, remaining + i = retries ->
    let r := RequestHandler.loop env config retries backoffMs remaining i h in
    fst r = Ok None /\ rhythm (snd r) = alternating remaining /\
    Forall (fun o => rejected_other o = true) (attempts (snd r)) /\
    length (attempts (snd r)) = remaining /\
    waits (snd r) = repeat 2000%float (remaining - 1).
Proof.
  intros Hoth remaining.
  induction remaining as [|n IH]; intros i h Hi.
  - cbn. repeat split; constructor.
  - unfold_js. case_outcome env config.
    + specialize (Hoth (h ++ [attempt_line config retries i])). unfold attempt_line in *.
      cbv beta in Hoth. rewrite <- Ho in Hoth. discriminate.
    + pose proof (Hoth (h ++ [attempt_line config retries i])) as Hs. unfold attempt_line in *.
      cbv beta in Hs. rewrite <- Ho in Hs.
      assert (Hs' : rejected_other (Rejected e) = true) by exact Hs.
      cbn in Hs. apply negb_true_iff in Hs. rewrite Hs.
      destruct n as [|n].
      * rewrite (isLastRetry_true i retries) by lia. cbn.
        repeat split; auto.
      * rewrite (isLastRetry_false i retries n) by lia.
        use_IH IH.
        destruct IH as (R1 & R2 & R3 & R4 & R5).
        repeat split; auto.
        -- cbn. rewrite R2. reflexivity.
        -- cbn. constructor; [exact Hs'|exact R3].
        -- cbn. rewrite R4. reflexivity.
        -- cbn. rewrite R5. cbn. rewrite Nat.sub_0_r. reflexivity.
Qed.

Lemma loop_verdict :
  forall remaining i h, remaining + i = retries ->
    let r := RequestHandler.loop env config retries backoffMs remaining i h in
    verdict config remaining (fst r) (snd r).
Proof.
  induction remaining as [|n IH]; intros i h Hi.
  - cbn. apply Exhausted; cbn; auto.
  - unfold_js. case_outcome env config.
    + cbn. apply Delivered with (failed := []); cbn; auto; try lia.
      symmetry in Ho. apply settle_resolved in Ho. exact Ho.
    + destruct (RequestHandler.is_500 (AxiosError.status e)).
      * destruct n as [|n].
        -- rewrite (isLastRetry_true i retries) by lia. cbn.
           apply Exhausted; cbn; auto.
        -- rewrite (isLastRetry_false i retries n) by lia.
           use_IH IH. inversion IH; subst.
           ++ apply Delivered with (failed := Rejected e :: failed); cbn; auto; try lia.
              ** congruence.
              ** match goal with H : rhythm _ = _ |- _ => rewrite H end. reflexivity.
           ++ apply Exhausted; cbn; auto.
              match goal with H : rhythm _ = _ |- _ => rewrite H end. reflexivity.
      * destruct n as [|n].
        -- rewrite (isLastRetry_true i retries) by lia. cbn.
           apply Exhausted; cbn; auto.
        -- rewrite (isLastRetry_false i retries n) by lia.
           use_IH IH. inversion IH; subst.
           ++ apply Delivered with (failed := Rejected e :: failed); cbn; auto; try lia.
              ** congruence.
              ** match goal with H : rhythm _ = _ |- _ => rewrite H end. reflexivity.
           ++ apply Exhausted; cbn; auto.
              match goal with H : rhythm _ = _ |- _ => rewrite H end. reflexivity.
Qed.

End Executor.

Lemma makeRequest_verdict (env : Env) (config : Config.t) (retries : nat)
    (backoffMs : float) (h : trace) :
  let r := RequestHandler.makeRequest env config retries backoffMs h in
  verdict config retries (fst r) (snd r).
Proof. apply loop_verdict. lia. Qed.

Lemma makeRequest_total (env : Env) (config : Config.t) (retries : nat) (backoffMs : float) :
  total (RequestHandler.makeRequest env config retries backoffMs).
Proof.
  intros h. pose proof (makeRequest_verdict env config retries backoffMs h) as V.
  cbv zeta in V. inversion V; eauto.
Qed.

Lemma nth_error_map_seq {A} (f : nat -> A) (start len j : nat) :
  j < len -> nth_error (map f (seq start len)) j = Some (f (start + j)).
Proof.
  intros Hj. rewrite nth_error_map.
  rewrite (nth_error_nth' _ 0) by (rewrite length_seq; exact Hj).
  rewrite seq_nth by exact Hj. reflexivity.
Qed.

(** The first 29 powers of 1.5 are floats, and [float_power] computes
    them without rounding: an exact [Math.pow] returns these. *)
Lemma float_power_exact (i : nat) :
  i < 29 ->
  exists q, real_of (float_power 1.5 i) = Some q /\ (q == (3 # 2) ^ Z.of_nat i)%Q.
Proof.
  intros Hi.
  do 29 (destruct i as [|i];
         [eexists; split; [vm_compute; reflexivity|vm_compute; reflexivity]|]).
  lia.
Qed.

(** The timers of the default schedule: with [backoffMs = 2000] and an
    exact [Math.pow], the round trip through seconds loses nothing for the
    first 29 iterations, and the timer is 2000 * 1.5^i. *)
Lemma default_backoff_exact (i : nat) :
  i < 29 ->
  exists q, real_of (2000 * float_power 1.5 i / 1000 * 1000)%float = Some q /\
            (q == 2000 * (3 # 2) ^ Z.of_nat i)%Q.
Proof.
  intros Hi.
  do 29 (destruct i as [|i];
         [eexists; split; [vm_compute; reflexivity|vm_compute; reflexivity]|]).
  lia.
Qed.

(** C1 as stated fails: with [backoffMs = 113] and every
    attempt rejected with status 500, the wait after the third attempt is
    not 113 * 1.5^2 = 254.25 ms.  [delay] is handed [waitTime / 1000] and
    multiplies by 1000 again, and in binary64 that round trip gives
    254.24999999999997 (the float 0x1.fc7ffffffffffp+7). *)
Lemma makeRequest_backoff_rounded :
  (forall h', rejected_500 (settle Scenario.ping
                              (transport Scenario.always_500 h' Scenario.ping)) = true) /\
  let r := RequestHandler.makeRequest Scenario.always_500 Scenario.ping 4 113 [] in
  fst r = Ok None /\
  length (attempts (snd r)) = 4 /\
  nth_error (waits (snd r)) 2 = Some 0x1.fc7ffffffffffp+7%float /\
  exists q, real_of 0x1.fc7ffffffffffp+7%float = Some q /\
            ~ (q == 113 * (3 # 2) ^ 2)%Q.
Proof.
  split; [intro; reflexivity|].
  cbv zeta. split; [vm_compute; reflexivity|].
  split; [vm_compute; reflexivity|].
  split; [vm_compute; reflexivity|].
  eexists. split; [vm_compute; reflexivity|].
  vm_compute. discriminate.
Qed.

(** C1 (amended): when every attempt is rejected with HTTP status 500, a
    call with a budget of N >= 1 attempts makes exactly N attempts, waits
    between consecutive attempts only and returns failure ([null]); the
    wait after the k-th attempt (k < N) is the binary64 value of
    [backoffMs * Math.pow(1.5, k-1) / 1000 * 1000].  With the default
    [backoffMs = 2000], at most 30 attempts and an exact [Math.pow] (one
    that returns the float 1.5^i), that value is exactly 2000 * 1.5^(k-1)
    milliseconds. *)
Theorem makeRequest_always_500 (env : Env) (config : Config.t) (N : nat)
    (backoffMs : float) (h : trace) :
  1 <= N ->
  (forall h', rejected_500 (settle config (transport env h' config)) = true) ->
  let r := RequestHandler.makeRequest env config N backoffMs h in
  fst r = Ok None /\
  length (attempts (snd r)) = N /\
  Forall (fun o => rejected_500 o = true) (attempts (snd r)) /\
  rhythm (snd r) = alternating N /\
  length (waits (snd r)) = N - 1 /\
  (forall k, 1 <= k < N ->
     nth_error (waits (snd r)) (k - 1)
     = Some (backoffMs * Math_pow env 1.5 (k - 1) / 1000 * 1000)%float) /\
  (backoffMs = 2000%float -> N <= 30 ->
   (forall i, i < 29 -> Math_pow env 1.5 i = float_power 1.5 i) ->
   forall k, 1 <= k < N ->
     exists w q, nth_error (waits (snd r)) (k - 1) = Some w /\
                 real_of w = Some q /\
                 (q == 2000 * (3 # 2) ^ Z.of_nat (k - 1))%Q).
Proof.
  intros _ H500 r.
  destruct (loop_500 env config N backoffMs H500 N 0 h ltac:(lia))
    as (R1 & R2 & R3 & R4 & R5).
  fold (RequestHandler.makeRequest env config N backoffMs h) in R1, R2, R3, R4, R5.
  fold r in R1, R2, R3, R4, R5.
  assert (Hk : forall k, 1 <= k < N ->
                 nth_error (waits (snd r)) (k - 1)
                 = Some (backoff_timer env backoffMs (k - 1))).
  { intros k Hk. rewrite R5. rewrite nth_error_map_seq by lia. reflexivity. }
  repeat split; auto.
  - rewrite R5, length_map, length_seq. reflexivity.
  - intros Hb HN Hpow k Hlt.
    destruct (default_backoff_exact (k - 1) ltac:(lia)) as (q & Hq & Hv).
    exists (backoff_timer env backoffMs (k - 1)), q.
    split; [apply Hk; exact Hlt|].
    unfold backoff_timer. rewrite Hb, Hpow by lia. split; assumption.
Qed.

Lemma makeRequest_always_500_witness :
  1 <= 3 /\
  (forall h', rejected_500 (settle Scenario.ping
                              (transport Scenario.always_500 h' Scenario.ping)) = true) /\
  let r := RequestHandler.makeRequest Scenario.always_500 Scenario.ping 3 2000 [] in
  fst r = Ok None /\ length (attempts (snd r)) = 3 /\
  rhythm (snd r) = [Attempt; Wait; Attempt; Wait; Attempt] /\
  nth_error (waits (snd r)) 1 = Some 3000%float.
Proof.
  assert (H1 : 1 <= 3) by lia.
  assert (H2 : forall h', rejected_500 (settle Scenario.ping
                 (transport Scenario.always_500 h' Scenario.ping)) = true)
    by (intro; reflexivity).
  split; [exact H1|]. split; [exact H2|].
  destruct (makeRequest_always_500 Scenario.always_500 Scenario.ping 3 2000 [] H1 H2)
    as (R1 & R2 & _ & R4 & _ & R6 & _).
  repeat split; auto.
Defined.

(** C2: when every attempt is rejected with anything but HTTP status 500
    (no answer at all, or another status), a call with a budget of N >= 1
    attempts makes exactly N attempts, waits 2000 ms between consecutive
    attempts, and returns failure ([null]). *)
Theorem makeRequest_always_other (env : Env) (config : Config.t) (N : nat)
    (backoffMs : float) (h : trace) :
  1 <= N ->
  (forall h', rejected_other (settle config (transport env h' config)) = true) ->
  let r := RequestHandler.makeRequest env config N backoffMs h in
  fst r = Ok None /\
  length (attempts (snd r)) = N /\
  Forall (fun o => rejected_other o = true) (attempts (snd r)) /\
  rhythm (snd r) = alternating N /\
  waits (snd r) = repeat 2000%float (N - 1).
Proof.
  intros _ Hoth r.
  destruct (loop_other env config N backoffMs Hoth N 0 h ltac:(lia))
    as (R1 & R2 & R3 & R4 & R5).
  repeat split; assumption.
Qed.

Lemma makeRequest_always_other_witness :
  1 <= 3 /\
  (forall h', rejected_other (settle Scenario.ping
                                (transport Scenario.unreachable h' Scenario.ping)) = true) /\
  let r := RequestHandler.makeRequest Scenario.unreachable Scenario.ping 3 2000 [] in
  fst r = Ok None /\ length (attempts (snd r)) = 3 /\
  rhythm (snd r) = [Attempt; Wait; Attempt; Wait; Attempt] /\
  waits (snd r) = [2000%float; 2000%float].
Proof.
  assert (H1 : 1 <= 3) by lia.
  assert (H2 : forall h', rejected_other (settle Scenario.ping
                 (transport Scenario.unreachable h' Scenario.ping)) = true)
    by (intro; reflexivity).
  split; [exact H1|]. split; [exact H2|].
  destruct (makeRequest_always_other Scenario.unreachable Scenario.ping 3 2000 [] H1 H2)
    as (R1 & R2 & _ & R4 & R5).
  repeat split; assumption.
Defined.

(** ** The wallet session *)

(** What the constructor hands back when it returns. *)
Lemma new_shape (env : Env) (proxy privateKey : option string) (refCode : string)
    (h : trace) (this : LayerEdgeConnection.t) :
  fst (LayerEdgeConnection.new env proxy privateKey refCode h) = Ok this ->
  LayerEdgeConnection.refCode this = refCode /\
  LayerEdgeConnection.proxy this = proxy /\
  LayerEdgeConnection.retryCount this = 30 /\
  LayerEdgeConnection.headers this = LayerEdgeConnection.default_headers /\
  LayerEdgeConnection.a_validateStatus (LayerEdgeConnection.axiosConfig this)
    = LayerEdgeConnection.validateStatus /\
  LayerEdgeConnection.a_timeout (LayerEdgeConnection.axiosConfig this) = 60000%Z.
Proof.
  unfold LayerEdgeConnection.new, bind.
  destruct ((if given proxy then newAgent env proxy else ret None) h) as [[agent|e] t1];
    [|discriminate].
  cbn [fst].
  match goal with
  | |- context [match ?m (h ++ t1) with _ => _ end] =>
      destruct (m (h ++ t1)) as [[w|e] t2]
  end; [|discriminate].
  cbn. intros [= <-]. cbn. repeat split; reflexivity.
Qed.

(** C3: a call of the executor returns a response only when axios resolved
    with it, right after that attempt, every earlier attempt having been
    rejected and followed by a wait; it returns failure only after as many
    rejected attempts as the budget allows; it never throws.  Through a
    session, whose [validateStatus] accepts exactly the statuses below 500,
    a returned response has a status below 500 and the budget is 30. *)
Theorem makeRequest_outcome (env : Env) :
  (forall config retries backoffMs h,
     let r := RequestHandler.makeRequest env config retries backoffMs h in
     verdict config retries (fst r) (snd r)) /\
  (forall proxy privateKey refCode h0 this,
     fst (LayerEdgeConnection.new env proxy privateKey refCode h0) = Ok this ->
     forall method url extra h,
       let r := LayerEdgeConnection.makeRequest env this method url extra h in
       verdict (LayerEdgeConnection.finalConfig this method url extra) 30 (fst r) (snd r) /\
       forall response, fst r = Ok (Some response) ->
                        (Response.status response < 500)%Z).
Proof.
  split.
  - intros. apply makeRequest_verdict.
  - intros proxy privateKey refCode h0 this Hnew method url extra h r.
    destruct (new_shape _ _ _ _ _ _ Hnew) as (_ & _ & Hretry & _ & Hvalid & _).
    pose proof (makeRequest_verdict env
                  (LayerEdgeConnection.finalConfig this method url extra)
                  (LayerEdgeConnection.retryCount this)
                  RequestHandler.default_backoffMs h) as V.
    cbv zeta in V. subst r. unfold LayerEdgeConnection.makeRequest.
    rewrite Hretry in *.
    split; [exact V|].
    intros response Hr. rewrite Hr in V.
    inversion V as [response' t failed _ _ _ _ Hv|]; subst.
    cbn in Hv. rewrite Hvalid in Hv.
    apply Z.ltb_lt. exact Hv.
Qed.

Lemma makeRequest_outcome_witness :
  fst (LayerEdgeConnection.new Scenario.always_500 None (Some "abc") "knYyWnsE" [])
    = Ok Scenario.session /\
  let r := LayerEdgeConnection.makeRequest Scenario.always_500 Scenario.session
             "get" "https://referralapi.layeredge.io/ping" LayerEdgeConnection.no_extra [] in
  verdict (LayerEdgeConnection.finalConfig Scenario.session "get"
             "https://referralapi.layeredge.io/ping" LayerEdgeConnection.no_extra)
    30 (fst r) (snd r) /\
  forall response, fst r = Ok (Some response) -> (Response.status response < 500)%Z.
Proof.
  assert (Hnew : fst (LayerEdgeConnection.new Scenario.always_500 None (Some "abc")
                        "knYyWnsE" []) = Ok Scenario.session) by (vm_compute; reflexivity).
  split; [exact Hnew|].
  exact (proj2 (makeRequest_outcome Scenario.always_500) None (Some "abc")
              "knYyWnsE" [] Scenario.session Hnew "get"
              "https://referralapi.layeredge.io/ping" LayerEdgeConnection.no_extra []).
Defined.

Lemma session_request_total (env : Env) (this : LayerEdgeConnection.t)
    (method url : string) (extra : LayerEdgeConnection.extra) :
  total (LayerEdgeConnection.makeRequest env this method url extra).
Proof. apply makeRequest_total. Qed.

(** Split on what the request the goal is about returned. *)
Ltac case_request :=
  match goal with
  | |- context [LayerEdgeConnection.makeRequest ?env ?this ?m ?u ?x ?h] =>
      let response := fresh "response" in
      let Hr := fresh "Hr" in
      let t := fresh "t" in
      destruct (session_request_total env this m u x h) as [response Hr];
      destruct (LayerEdgeConnection.makeRequest env this m u x h) as [?r t];
      cbn [fst] in Hr; subst; cbn [fst snd]
  end.

Lemma truthy_get (data : JS.value) (k : string) :
  JS.truthy data = true -> JS.get data k = Some (JS.get_opt data k).
Proof. destruct data; cbn; try discriminate; reflexivity. Qed.

(** What [checkNodeStatus] does, by what its request returned. *)
Lemma checkNodeStatus_cases (env : Env) (this : LayerEdgeConnection.t) (h : trace) :
  exists response,
    fst (status_request env this h) = Ok response /\
    match LayerEdgeConnection.body response with
    | None => fst (LayerEdgeConnection.checkNodeStatus env this h) = Ok false
    | Some data =>
        match startTimestamp_of data with
        | Some v => fst (LayerEdgeConnection.checkNodeStatus env this h)
                    = Ok (negb (JS.is_null v))
        | None => fst (LayerEdgeConnection.checkNodeStatus env this h)
                  = Throw JS.TypeError
        end
    end.
Proof.
  unfold LayerEdgeConnection.checkNodeStatus, status_request, bind.
  case_request. exists response. split; [reflexivity|].
  destruct (LayerEdgeConnection.body response) as [data|]; [|reflexivity].
  unfold startTimestamp_of, prop.
  destruct (JS.get data "data") as [inner|]; [|reflexivity].
  cbn. destruct (JS.get inner "startTimestamp") as [v|]; [|reflexivity].
  cbn. destruct (JS.is_null v); reflexivity.
Qed.

Lemma is_null_false (v : JS.value) : JS.is_null v = false <-> v <> JS.Null.
Proof. destruct v; cbn; split; intros; congruence. Qed.

(** C4 (amended): provided a delivered truthy body has a [data] object to
    read from, [checkNodeStatus] returns true exactly when a response with
    a truthy body came back and [data.data.startTimestamp] is not [null]
    -- an absent field reads as [undefined], which is not [null], so it
    gives true -- and false exactly when the executor failed, the body is
    missing or falsy, or the field is [null]. *)
Theorem checkNodeStatus_result (env : Env) (this : LayerEdgeConnection.t) (h : trace)
    (response : option Response.t) :
  fst (status_request env this h) = Ok response ->
  (forall data, LayerEdgeConnection.body response = Some data ->
                startTimestamp_of data <> None) ->
  let out := fst (LayerEdgeConnection.checkNodeStatus env this h) in
  (out = Ok true <->
     exists data v, LayerEdgeConnection.body response = Some data /\
                    startTimestamp_of data = Some v /\ v <> JS.Null) /\
  (out = Ok false <->
     LayerEdgeConnection.body response = None \/
     exists data, LayerEdgeConnection.body response = Some data /\
                  startTimestamp_of data = Some JS.Null) /\
  (forall data, LayerEdgeConnection.body response = Some data ->
                startTimestamp_of data = Some JS.Undefined -> out = Ok true) /\
  (response = None -> out = Ok false).
Proof.
  intros Hcall Hdata out.
  destruct (checkNodeStatus_cases env this h) as (response' & Hcall' & Hcases).
  rewrite Hcall in Hcall'. injection Hcall' as <-.
  fold out in Hcases.
  destruct (LayerEdgeConnection.body response) as [data|] eqn:Hbody.
  - specialize (Hdata data eq_refl).
    destruct (startTimestamp_of data) as [v|] eqn:Hts; [|congruence].
    rewrite Hcases. repeat split.
    + intros [= Hv]. exists data, v. repeat split; auto.
      apply is_null_false. apply negb_true_iff. exact Hv.
    + intros (data' & v' & Hb & Hs & Hv).
      injection Hb as <-. rewrite Hts in Hs. injection Hs as <-.
      apply is_null_false in Hv. rewrite Hv. reflexivity.
    + intros [= Hv]. right. exists data. split; auto.
      apply negb_false_iff in Hv. destruct v; try discriminate. exact Hts.
    + intros [Hnone | (data' & Hb & Hs)]; [discriminate|].
      injection Hb as <-. rewrite Hts in Hs. injection Hs as ->. reflexivity.
    + intros data' Hb Hs.
      injection Hb as <-. rewrite Hts in Hs. injection Hs as ->. reflexivity.
    + intros ->. discriminate.
  - rewrite Hcases. repeat split.
    + discriminate.
    + intros (data' & v' & Hd & _). discriminate.
    + intros _. left. reflexivity.
    + discriminate.
Qed.

Lemma checkNodeStatus_result_witness :
  fst (status_request (Scenario.answering Scenario.node_running 200) Scenario.session [])
    = Ok (Some (Response.mk 200 Scenario.node_running)) /\
  (forall data,
     LayerEdgeConnection.body (Some (Response.mk 200 Scenario.node_running)) = Some data ->
     startTimestamp_of data <> None) /\
  fst (LayerEdgeConnection.checkNodeStatus (Scenario.answering Scenario.node_running 200)
         Scenario.session []) = Ok true.
Proof.
  assert (H1 : fst (status_request (Scenario.answering Scenario.node_running 200)
                      Scenario.session [])
               = Ok (Some (Response.mk 200 Scenario.node_running)))
    by (vm_compute; reflexivity).
  assert (H2 : forall data,
             LayerEdgeConnection.body (Some (Response.mk 200 Scenario.node_running))
               = Some data -> startTimestamp_of data <> None)
    by (intros data [= <-]; discriminate).
  split; [exact H1|]. split; [exact H2|].
  apply (proj1 (checkNodeStatus_result _ _ _ _ H1 H2)).
  exists Scenario.node_running, (JS.Num 1699999999).
  repeat split; [discriminate].
Defined.

(** C4 as stated fails: the server answers 200 with a body whose [data]
    object has no [startTimestamp]; the field is absent, yet
    [checkNodeStatus] returns true. *)
Lemma checkNodeStatus_absent_field :
  JS.lookup "startTimestamp" [] = JS.Undefined /\
  startTimestamp_of Scenario.running_without_timestamp = Some JS.Undefined /\
  fst (status_request (Scenario.answering Scenario.running_without_timestamp 200)
         Scenario.session [])
    = Ok (Some (Response.mk 200 Scenario.running_without_timestamp)) /\
  fst (LayerEdgeConnection.checkNodeStatus
         (Scenario.answering Scenario.running_without_timestamp 200)
         Scenario.session []) = Ok true.
Proof. repeat split; vm_compute; reflexivity. Qed.

(** What [checkInvite] does, by what its request returned. *)
Lemma checkInvite_cases (env : Env) (this : LayerEdgeConnection.t) (h : trace) :
  exists response,
    fst (LayerEdgeConnection.makeRequest env this "post"
           "https://referralapi.layeredge.io/api/referral/verify-referral-code"
           (LayerEdgeConnection.mkExtra
              (Some (JS.Obj [("invite_code", JS.Str (LayerEdgeConnection.refCode this))]))
              None) h) = Ok response /\
    match LayerEdgeConnection.body response with
    | None => fst (LayerEdgeConnection.checkInvite env this h) = Ok false
    | Some data =>
        match valid_of data with
        | Some v => fst (LayerEdgeConnection.checkInvite env this h) = Ok (JS.is_true v)
        | None => fst (LayerEdgeConnection.checkInvite env this h) = Throw JS.TypeError
        end
    end.
Proof.
  unfold LayerEdgeConnection.checkInvite, bind.
  case_request. exists response. split; [reflexivity|].
  destruct (LayerEdgeConnection.body response) as [data|]; [|reflexivity].
  unfold valid_of, prop.
  destruct (JS.get data "data") as [inner|]; [|reflexivity].
  cbn. destruct (JS.get inner "valid") as [v|]; [|reflexivity].
  cbn. destruct (JS.is_true v); reflexivity.
Qed.

Lemma registerWallet_total (env : Env) (this : LayerEdgeConnection.t) :
  total (LayerEdgeConnection.registerWallet env this).
Proof.
  intros h. unfold LayerEdgeConnection.registerWallet, bind.
  case_request.
  destruct (LayerEdgeConnection.body response); cbn; eauto.
Qed.

Lemma checkNodePoints_total (env : Env) (this : LayerEdgeConnection.t) :
  total (LayerEdgeConnection.checkNodePoints env this).
Proof.
  intros h. unfold LayerEdgeConnection.checkNodePoints, bind.
  case_request.
  destruct (LayerEdgeConnection.body response); cbn; eauto.
Qed.

(** [try { ... } catch { return false }] returns in every case. *)
Lemma try_catch_total {A} (m : M A) (handler : JS.exn -> M A) :
  (forall e, total (handler e)) -> total (try_catch m handler).
Proof.
  intros Hh h. unfold try_catch.
  destruct (m h) as [[a|e] t1]; [cbn; eauto|].
  destruct (Hh e (h ++ t1)) as [a Ha].
  destruct (handler e (h ++ t1)) as [r t2]. cbn in *. eauto.
Qed.

Lemma dailyCheckIn_total (env : Env) (this : LayerEdgeConnection.t) :
  total (LayerEdgeConnection.dailyCheckIn env this).
Proof.
  apply try_catch_total. intros e h. exists false. reflexivity.
Qed.

(** C5: the operations are not all exception-free.  With a 200 answer
    whose body is the empty object, [checkInvite] and [checkNodeStatus]
    read a property of [undefined] and the TypeError escapes them; when the
    signer rejects, [connectNode] and [stopNode] let the rejection escape.
    [dailyCheckIn], the one operation with a [try]/[catch], returns false
    on the same failure. *)
Theorem operations_throw :
  fst (LayerEdgeConnection.checkInvite (Scenario.answering Scenario.empty_object 200)
         Scenario.session []) = Throw JS.TypeError /\
  fst (LayerEdgeConnection.checkNodeStatus (Scenario.answering Scenario.empty_object 200)
         Scenario.session []) = Throw JS.TypeError /\
  fst (LayerEdgeConnection.connectNode Scenario.cannot_sign Scenario.session [])
    = Throw (JS.LibraryError "signMessage") /\
  fst (LayerEdgeConnection.stopNode Scenario.cannot_sign Scenario.session [])
    = Throw (JS.LibraryError "signMessage") /\
  fst (LayerEdgeConnection.dailyCheckIn Scenario.cannot_sign Scenario.session [])
    = Ok false.
Proof. repeat split; vm_compute; reflexivity. Qed.

(** C6 (amended): [dailyCheckIn] never throws.  When the signer rejects it
    returns false.  Otherwise it returns by what the request brought back:
    false when the executor failed or the body is missing or falsy; with a
    truthy body whose [statusCode] is 405, true (logging the cooldown cut
    out of the message by [/after\s+([^!]+)!/], or the fallback text when
    the pattern does not match) when the message is a string, and false
    when it is not, the failed [match] call being caught; true for every
    other truthy body. *)
Theorem dailyCheckIn_result (env : Env) (this : LayerEdgeConnection.t) (h : trace) :
  let timestamp := now env h in
  let message := claim_message this timestamp in
  let out := LayerEdgeConnection.dailyCheckIn env this h in
  match signMessage env (LayerEdgeConnection.wallet this) message with
  | None => fst out = Ok false
  | Some signature =>
      exists response,
        fst (claim_request env this timestamp signature
               (h ++ [EvSign (LayerEdgeConnection.wallet this) message])) = Ok response /\
        match LayerEdgeConnection.body response with
        | None => fst out = Ok false
        | Some data =>
            if already_claimed data then
              match JS.get_opt data "message" with
              | JS.Str text =>
                  fst out = Ok true /\
                  In (EvLog info "⚠️ 每日签到已完成"
                        (JS.Str ("请在 " ++ cooldownTime text ++ " 后再来")))
                     (snd out)
              | _ => fst out = Ok false
              end
            else
              fst out = Ok true /\ In (EvLog info "✅ 每日签到成功" data) (snd out)
        end
  end.
Proof.
  intros timestamp message out. subst out.
  unfold LayerEdgeConnection.dailyCheckIn, try_catch, bind, Date_now, sign.
  fold timestamp. fold (claim_message this timestamp). fold message.
  destruct (signMessage env (LayerEdgeConnection.wallet this) message)
    as [signature|]; [|reflexivity].
  unfold claim_request. rewrite !app_nil_r.
  case_request. exists response. split; [reflexivity|].
  destruct (LayerEdgeConnection.body response) as [data|]; [|reflexivity].
  unfold already_claimed.
  destruct (JS.truthy (JS.get_opt data "statusCode")
            && JS.eq_num (JS.get_opt data "statusCode") 405).
  - destruct (JS.get_opt data "message"); try reflexivity.
    cbn [String_match ret logger.info logger.log emit fst snd app].
    split; [reflexivity|].
    right. apply in_or_app. right. left. reflexivity.
  - cbn [ret logger.info logger.log emit fst snd app].
    split; [reflexivity|].
    right. apply in_or_app. right. left. reflexivity.
Qed.

(** C6 as stated fails: the server answers 200 with the truthy body
    [{statusCode: 405}], which has no message text; the body is delivered,
    yet [dailyCheckIn] returns false. *)
Lemma dailyCheckIn_claimed_without_message :
  LayerEdgeConnection.body (Some (Response.mk 200 Scenario.claimed_without_message))
    = Some Scenario.claimed_without_message /\
  fst (claim_request (Scenario.answering Scenario.claimed_without_message 200)
         Scenario.session 1700000000000
         ("signed:" ++ claim_message Scenario.session 1700000000000)
         [EvSign (LayerEdgeConnection.wallet Scenario.session)
                 (claim_message Scenario.session 1700000000000)])
    = Ok (Some (Response.mk 200 Scenario.claimed_without_message)) /\
  fst (LayerEdgeConnection.dailyCheckIn
         (Scenario.answering Scenario.claimed_without_message 200)
         Scenario.session []) = Ok false.
Proof. repeat split; vm_compute; reflexivity. Qed.

(** ** The orchestration loop *)

Lemma proxies_given_app (t1 t2 : trace) :
  proxies_given (t1 ++ t2) = proxies_given t1 ++ proxies_given t2.
Proof.
  induction t1 as [|e t1 IH]; [reflexivity|].
  destruct e as [| | | | |name args|]; simpl; try exact IH.
  destruct args as [|proxy args]; [exact IH|].
  destruct (name =? "constructor")%string; simpl; congruence.
Qed.

(** One wallet's body of the loop, run against the stand-in: it returns,
    and the calls it made are the sequence for what the methods returned. *)
Lemma process_wallet_calls (answer : script) (proxies : list string)
    (total i : nat) (wallet : Entry.t) (h : trace) :
  let r := process_wallet (StandIn answer) proxies total i wallet h in
  fst r = Ok tt /\
  proxies_given (snd r) = [nullable (select_proxy proxies i)] /\
  exists checkedIn running stopped connected counted,
    calls (snd r) =
    map event_of_call
      (sequence (select_proxy proxies i) (Entry.privateKey wallet)
         checkedIn running stopped connected counted).
Proof.
  unfold process_wallet, try_catch, bind, StandIn, stand_in_method,
    logger.verbose, logger.info, logger.error, logger.progress, logger.log, emit, ret.
  cbn -[select_proxy string_of_nat String.append].
  match goal with
  | |- context [if answer "checkNodeStatus" ?hh then _ else _] =>
      destruct (answer "checkNodeStatus" hh) eqn:Hrun
  end;
    cbn -[select_proxy string_of_nat String.append];
    (split; [reflexivity|]); (split; [reflexivity|]).
  - eexists _, true, _, _, _. reflexivity.
  - eexists _, false, false, _, _. reflexivity.
Qed.

Lemma for_wallets_calls (answer : script) (proxies : list string) (total : nat)
    (wallets : list Entry.t) :
  forall i h,
    let r := for_wallets (StandIn answer) proxies total i wallets h in
    fst r = Ok tt /\
    proxies_given (snd r)
      = map (fun j => nullable (select_proxy proxies j)) (seq i (length wallets)) /\
    pass proxies i wallets (calls (snd r)).
Proof.
  induction wallets as [|wallet rest IH]; intros i h.
  - cbn. repeat split. constructor.
  - cbn [for_wallets]. unfold bind.
    destruct (process_wallet_calls answer proxies total i wallet h)
      as (R1 & R2 & d & s & p & c & q & R3).
    destruct (process_wallet (StandIn answer) proxies total i wallet h) as [r1 t1].
    cbn [fst snd] in R1, R2, R3. subst r1.
    specialize (IH (S i) (h ++ t1)).
    destruct (for_wallets (StandIn answer) proxies total (S i) rest (h ++ t1)) as [r2 t2].
    cbn [fst snd] in IH |- *. destruct IH as (I1 & I2 & I3).
    repeat split.
    + exact I1.
    + rewrite proxies_given_app, R2, I2. reflexivity.
    + rewrite calls_app, R3. constructor. exact I3.
Qed.

Lemma cycles_calls (answer : script) (proxies : list string) (wallets : list Entry.t) :
  forall n h,
    let r := cycles (StandIn answer) proxies wallets n h in
    fst r = Ok Cycling /\
    proxies_given (snd r)
      = concat (repeat (map (fun j => nullable (select_proxy proxies j))
                            (seq 0 (length wallets))) n) /\
    passes proxies wallets n (calls (snd r)).
Proof.
  induction n as [|n IH]; intros h.
  - cbn. repeat split. constructor.
  - cbn [cycles]. unfold bind.
    destruct (for_wallets_calls answer proxies (length wallets) wallets 0 h)
      as (R1 & R2 & R3).
    destruct (for_wallets (StandIn answer) proxies (length wallets) 0 wallets h)
      as [r1 t1].
    cbn [fst snd] in R1, R2, R3. subst r1.
    unfold logger.warn, logger.log, delay, emit.
    match goal with
    | |- context [cycles _ _ _ n ?hh] =>
        specialize (IH hh); destruct (cycles (StandIn answer) proxies wallets n hh) as [r2 t2]
    end.
    cbn [fst snd] in IH |- *. destruct IH as (I1 & I2 & I3).
    repeat split.
    + exact I1.
    + rewrite !proxies_given_app. cbn [proxies_given repeat concat app].
      rewrite R2, I2. reflexivity.
    + rewrite !calls_app. cbn [calls app]. constructor; assumption.
Qed.

Lemma readFile_lines (env : Env) (pathFile : string) (h : trace) (lines : list string) :
  fst (readFile env pathFile h) = Ok lines ->
  Forall (fun l => nonempty l = true) lines.
Proof.
  unfold readFile. destruct (fs_readFile env pathFile) as [datas|]; cbn.
  - intros [= <-]. apply Forall_forall. intros l Hl.
    apply filter_In in Hl. apply Hl.
  - intros [= <-]. constructor.
Qed.

Lemma select_proxy_nonempty (proxies : list string) (i : nat) :
  Forall (fun l => nonempty l = true) proxies -> proxies <> [] ->
  exists p, nth_error proxies (i mod length proxies) = Some p /\
            select_proxy proxies i = Some p.
Proof.
  intros Hne Hnil. unfold select_proxy.
  destruct proxies as [|p0 rest] eqn:E; [congruence|].
  rewrite <- E in *. assert (Hlen : length proxies <> 0) by (subst; cbn; lia).
  destruct (length proxies) as [|m] eqn:El; [congruence|]. rewrite <- El in *.
  assert (Hlt : i mod length proxies < length proxies)
    by (apply Nat.mod_upper_bound; exact Hlen).
  destruct (nth_error proxies (i mod length proxies)) as [p|] eqn:Hn.
  - exists p. split; [reflexivity|].
    apply nth_error_In in Hn. rewrite Forall_forall in Hne.
    rewrite (Hne p Hn). reflexivity.
  - apply nth_error_None in Hn. lia.
Qed.

(** C7: with the proxies read from proxy.txt, wallet index [i] is given
    the proxy at index [i mod proxies.length] when there is at least one
    proxy -- one proxy serves wallets 0 and 1 alike, two proxies serve
    wallets 0, 1, 2 as first, second, first -- and no proxy when there is
    none; the constructor is handed exactly these, wallet after wallet, in
    every cycle. *)
Theorem proxy_assignment (env : Env) (h : trace) (proxies : list string) :
  fst (readFile env "proxy.txt" h) = Ok proxies ->
  (proxies <> [] ->
   forall i, exists p, nth_error proxies (i mod length proxies) = Some p /\
                       select_proxy proxies i = Some p) /\
  (proxies = [] -> forall i, select_proxy proxies i = None) /\
  (forall p, proxies = [p] -> map (select_proxy proxies) [0; 1] = [Some p; Some p]) /\
  (forall p q, proxies = [p; q] ->
               map (select_proxy proxies) [0; 1; 2] = [Some p; Some q; Some p]) /\
  (forall answer wallets n h',
     proxies_given (snd (cycles (StandIn answer) proxies wallets n h'))
     = concat (repeat (map (fun i => nullable (select_proxy proxies i))
                           (seq 0 (length wallets))) n)).
Proof.
  intros Hread. apply readFile_lines in Hread.
  repeat split.
  - intros Hnil i. apply select_proxy_nonempty; assumption.
  - intros -> i. reflexivity.
  - intros p ->. inversion Hread as [|? ? Hp _]; subst.
    unfold select_proxy. cbn. rewrite Hp. reflexivity.
  - intros p q ->. inversion Hread as [|? ? Hp Hrest]; subst.
    inversion Hrest as [|? ? Hq _]; subst.
    unfold select_proxy. cbn. rewrite Hp, Hq. reflexivity.
  - intros answer wallets n h'. apply cycles_calls.
Qed.

Lemma proxy_assignment_witness :
  fst (readFile (Scenario.configured Scenario.node_running) "proxy.txt" [])
    = Ok ["http://10.0.0.1:8080"; "socks5://10.0.0.2:1080"] /\
  map (select_proxy ["http://10.0.0.1:8080"; "socks5://10.0.0.2:1080"]) [0; 1; 2]
    = [Some "http://10.0.0.1:8080"; Some "socks5://10.0.0.2:1080";
       Some "http://10.0.0.1:8080"].
Proof.
  assert (Hread : fst (readFile (Scenario.configured Scenario.node_running) "proxy.txt" [])
                  = Ok ["http://10.0.0.1:8080"; "socks5://10.0.0.2:1080"])
    by (vm_compute; reflexivity).
  split; [exact Hread|].
  destruct (proxy_assignment _ _ _ Hread) as (_ & _ & _ & H2 & _).
  apply H2. reflexivity.
Defined.

(** With a stand-in that never throws, every turn is the whole sequence:
    constructor, [dailyCheckIn], [checkNodeStatus], [stopNode] exactly when
    [checkNodeStatus] returned true, [connectNode], [checkNodePoints]. *)
Lemma wallet_sequence_complete (answer : script) (proxies : list string)
    (wallets : list Entry.t) (n : nat) (h : trace) :
  let r := cycles (StandIn answer) proxies wallets n h in
  fst r = Ok Cycling /\ passes proxies wallets n (calls (snd r)).
Proof.
  destruct (cycles_calls answer proxies wallets n h) as (R1 & _ & R3).
  split; assumption.
Qed.










(** The body of the loop returns for any session class: whatever is
    thrown inside is caught. *)
Lemma process_wallet_returns (C : Connection) (proxies : list string)
    (total i : nat) (wallet : Entry.t) (h : trace) :
  fst (process_wallet C proxies total i wallet h) = Ok tt.
Proof.
  unfold process_wallet, try_catch.
  match goal with
  | |- context [match ?m h with _ => _ end] => destruct (m h) as [[[]|e] t1]
  end; reflexivity.
Qed.

Lemma for_wallets_returns (C : Connection) (proxies : list string) (total : nat)
    (wallets : list Entry.t) :
  forall i h, fst (for_wallets C proxies total i wallets h) = Ok tt.
Proof.
  induction wallets as [|wallet rest IH]; intros i h; [reflexivity|].
  cbn [for_wallets]. unfold bind.
  pose proof (process_wallet_returns C proxies total i wallet h) as R.
  destruct (process_wallet C proxies total i wallet h) as [r1 t1].
  cbn [fst] in R. subst r1.
  specialize (IH (S i) (h ++ t1)).
  destruct (for_wallets C proxies total (S i) rest (h ++ t1)) as [r2 t2].
  exact IH.
Qed.

Lemma cycles_returns (C : Connection) (proxies : list string) (wallets : list Entry.t) :
  forall n h, fst (cycles C proxies wallets n h) = Ok Cycling.
Proof.
  induction n as [|n IH]; intros h; [reflexivity|].
  cbn [cycles]. unfold bind.
  pose proof (for_wallets_returns C proxies (length wallets) wallets 0 h) as R.
  destruct (for_wallets C proxies (length wallets) 0 wallets h) as [r1 t1].
  cbn [fst] in R. subst r1.
  unfold logger.warn, logger.log, delay, emit.
  match goal with
  | |- context [cycles _ _ _ n ?hh] =>
      specialize (IH hh); destruct (cycles C proxies wallets n hh) as [r2 t2]
  end.
  exact IH.
Qed.

Lemma readWallets_empty (env : Env) :
  (forall h, fst (readWallets env h) = Ok []) ->
  wallets_json env = Missing \/ wallets_json env = Parsed [].
Proof.
  intros H. specialize (H []). unfold readWallets in H.
  destruct (wallets_json env) as [| |wallets]; cbn in H.
  - left; reflexivity.
  - discriminate.
  - injection H as ->. right; reflexivity.
Qed.

(** A session constructed without a proxy sends every request directly. *)
Lemma new_without_proxy (env : Env) (privateKey : option string) (refCode : string)
    (h : trace) (this : LayerEdgeConnection.t) :
  fst (LayerEdgeConnection.new env None privateKey refCode h) = Ok this ->
  forall method url extra,
    Config.httpsAgent (LayerEdgeConnection.finalConfig this method url extra) = None.
Proof.
  unfold LayerEdgeConnection.new, bind. cbn [given ret fst].
  match goal with
  | |- context [match ?m (h ++ []) with _ => _ end] =>
      destruct (m (h ++ [])) as [[w|e] t2]
  end; [|discriminate].
  cbn. intros [= <-]. reflexivity.
Qed.

Lemma readFile_none (env : Env) (pathFile : string) :
  (forall h, fst (readFile env pathFile h) = Ok []) ->
  match fs_readFile env pathFile with
  | Some datas => filter nonempty (map trim (split_lines datas)) = []
  | None => True
  end.
Proof.
  intros H. specialize (H []). unfold readFile in H.
  destruct (fs_readFile env pathFile); [|exact I].
  cbn in H. congruence.
Qed.

Lemma readWallets_some (env : Env) (wallets : list Entry.t) :
  (forall h, fst (readWallets env h) = Ok wallets) -> wallets <> [] ->
  wallets_json env = Parsed wallets.
Proof.
  intros H Hne. specialize (H []). unfold readWallets in H.
  destruct (wallets_json env) as [| |ws]; cbn in H; congruence.
Qed.

(** The part of the list [tr] that comes before its tail [t]. *)
Ltac prefix_of tr t :=
  lazymatch tr with
  | t => constr:(@nil event)
  | ?x :: ?tr' => let p := prefix_of tr' t in constr:(x :: p)
  end.

(** With wallets and no proxies, [run] logs and enters the loop. *)
Lemma run_enters_loop (env : Env) (C : Connection) (n : nat) (h : trace)
    (wallets : list Entry.t) :
  (forall h', fst (readFile env "proxy.txt" h') = Ok []) ->
  (forall h', fst (readWallets env h') = Ok wallets) ->
  wallets <> [] ->
  exists logs hh,
    Forall is_log logs /\
    In (EvLog warn "未找到代理" (JS.Str "将不使用代理运行")) logs /\
    run env C n h = (Ok Cycling, logs ++ snd (cycles C [] wallets n hh)).
Proof.
  intros Hp Hw Hne.
  apply readFile_none in Hp. apply readWallets_some in Hw; [|exact Hne].
  assert (Hlen : (length wallets =? 0)%nat = false)
    by (destruct wallets; [congruence | reflexivity]).
  cbv beta iota delta [run try_catch bind readFile readWallets logger.info logger.warn
      logger.error logger.log emit ret throw].
  rewrite Hw.
  destruct (fs_readFile env "proxy.txt") as [datas|]; [rewrite Hp|];
    cbn [fst snd app length Nat.eqb]; rewrite Hlen;
    match goal with
    | |- context [cycles C [] wallets n ?hh] =>
        pose proof (cycles_returns C [] wallets n hh) as R;
        destruct (cycles C [] wallets n hh) as [r t] eqn:E;
        cbn [fst] in R; subst r; cbn [fst snd app];
        match goal with
        | |- exists logs hh', _ /\ _ /\ (_, ?tr) = _ =>
            let p := prefix_of tr t in exists p, hh
        end;
        rewrite E
    end;
    (split; [repeat constructor|]);
    (split; [cbn; auto 6|]); reflexivity.
Qed.

Lemma map_constant {A B} (f : A -> B) (c : B) (l : list A) :
  (forall a, f a = c) -> map f l = repeat c (length l).
Proof. intros H. induction l as [|a l IH]; cbn; [reflexivity|]. rewrite H, IH. reflexivity. Qed.

Lemma concat_repeat_repeat {A} (c : A) (k n : nat) :
  concat (repeat (repeat c k) n) = repeat c (n * k).
Proof.
  induction n as [|n IH]; cbn; [reflexivity|].
  rewrite IH, repeat_app. reflexivity.
Qed.

Lemma proxies_given_logs (logs : trace) : Forall is_log logs -> proxies_given logs = [].
Proof.
  induction 1 as [|e logs He _ IH]; [reflexivity|].
  destruct e; cbn in He; try contradiction. exact IH.
Qed.

(** C8: when the wallet list read at startup is empty, [run] logs, calls
    [process.exit(1)] and does nothing else: no session is constructed, no
    request is sent, no timer is armed.  When only the proxy list is
    empty, [run] logs the warning and goes on cycling; every wallet's
    session is constructed with no proxy, and such a session sends its
    requests without an agent. *)
Theorem startup_checks (env : Env) (C : Connection) (n : nat) (h : trace) :
  ((forall h', fst (readWallets env h') = Ok []) ->
   fst (run env C n h) = Ok (Exited 1) /\
   attempts (snd (run env C n h)) = [] /\
   exists logs, snd (run env C n h) = logs ++ [EvExit 1] /\ Forall is_log logs) /\
  (forall wallets,
     (forall h', fst (readFile env "proxy.txt" h') = Ok []) ->
     (forall h', fst (readWallets env h') = Ok wallets) ->
     wallets <> [] ->
     fst (run env C n h) = Ok Cycling /\
     In (EvLog warn "未找到代理" (JS.Str "将不使用代理运行")) (snd (run env C n h)) /\
     (forall i, select_proxy [] i = None) /\
     (forall answer,
        proxies_given (snd (run env (StandIn answer) n h))
        = repeat JS.Null (n * length wallets)) /\
     (forall privateKey refCode h0 this,
        fst (LayerEdgeConnection.new env None privateKey refCode h0) = Ok this ->
        forall method url extra,
          Config.httpsAgent (LayerEdgeConnection.finalConfig this method url extra)
          = None)).
Proof.
  split.
  - intros Hw. apply readWallets_empty in Hw.
    cbv beta iota delta [run try_catch bind readFile readWallets logger.info logger.warn
        logger.error logger.log emit ret throw].
    destruct (fs_readFile env "proxy.txt") as [datas|];
      destruct Hw as [-> | ->];
      try (destruct (length (filter nonempty (map trim (split_lines datas))) =? 0)%nat);
      cbn [fst snd app length Nat.eqb attempts];
      (split; [reflexivity|]); (split; [reflexivity|]);
      match goal with
      | |- exists logs, ?t = logs ++ _ /\ _ => exists (removelast t)
      end; cbn [removelast]; (split; [reflexivity | repeat constructor]).
  - intros wallets Hp Hw Hne.
    destruct (run_enters_loop env C n h wallets Hp Hw Hne) as (logs & hh & Hlogs & Hin & Hrun).
    rewrite Hrun. cbn [fst snd].
    split; [reflexivity|]. split; [apply in_or_app; left; exact Hin|].
    split; [reflexivity|]. split.
    + intros answer.
      destruct (run_enters_loop env (StandIn answer) n h wallets Hp Hw Hne)
        as (logs' & hh' & Hlogs' & _ & Hrun').
      rewrite Hrun'. cbn [snd]. rewrite proxies_given_app, (proxies_given_logs _ Hlogs').
      destruct (cycles_calls answer [] wallets n hh') as (_ & R & _).
      cbn [app]. rewrite R.
      rewrite (map_constant _ JS.Null) by reflexivity.
      rewrite length_seq. apply concat_repeat_repeat.
    + intros privateKey refCode h0 this Hnew. apply (new_without_proxy _ _ _ _ _ Hnew).
Qed.

Lemma startup_checks_witness :
  (forall h', fst (readWallets (Scenario.answering Scenario.node_running 200) h') = Ok []) /\
  fst (run (Scenario.answering Scenario.node_running 200)
           (LayerEdge (Scenario.answering Scenario.node_running 200)) 2 [])
    = Ok (Exited 1) /\
  (forall h', fst (readFile (Scenario.without_proxies Scenario.node_running)
                     "proxy.txt" h') = Ok []) /\
  (forall h', fst (readWallets (Scenario.without_proxies Scenario.node_running) h')
              = Ok Scenario.three_wallets) /\
  Scenario.three_wallets <> [] /\
  fst (run (Scenario.without_proxies Scenario.node_running)
           (LayerEdge (Scenario.without_proxies Scenario.node_running)) 2 [])
    = Ok Cycling.
Proof.
  assert (H1 : forall h', fst (readWallets (Scenario.answering Scenario.node_running 200) h')
                          = Ok []) by (intro; reflexivity).
  assert (H2 : forall h', fst (readFile (Scenario.without_proxies Scenario.node_running)
                                 "proxy.txt" h') = Ok []) by (intro; reflexivity).
  assert (H3 : forall h', fst (readWallets (Scenario.without_proxies Scenario.node_running) h')
                          = Ok Scenario.three_wallets) by (intro; reflexivity).
  assert (H4 : Scenario.three_wallets <> []) by discriminate.
  split; [exact H1|].
  split; [exact (proj1 (proj1 (startup_checks _ _ 2 []) H1))|].
  split; [exact H2|]. split; [exact H3|]. split; [exact H4|].
  exact (proj1 (proj2 (startup_checks _ _ 2 []) _ H2 H3 H4)).
Defined.

(** ** Whose wallet a session acts for *)

Section Emits.

Context {A B : Type} (P : event -> Prop).

Lemma emits_ret (a : A) : emits P (ret a).
Proof. intros h. constructor. Qed.

Lemma emits_throw (e : JS.exn) : emits P (@throw A e).
Proof. intros h. constructor. Qed.

Lemma emits_bind (m : M A) (k : A -> M B) :
  emits P m ->
  (forall h a, fst (m h) = Ok a -> emits P (k a)) ->
  emits P (bind m k).
Proof.
  intros Hm Hk h. unfold bind.
  specialize (Hm h). specialize (Hk h).
  destruct (m h) as [[a|e] t1]; cbn [fst snd] in *; [|exact Hm].
  specialize (Hk a eq_refl (h ++ t1)).
  destruct (k a (h ++ t1)) as [r t2]. cbn [snd] in *.
  apply Forall_app. split; assumption.
Qed.

Lemma emits_try_catch (m : M A) (handler : JS.exn -> M A) :
  emits P m -> (forall e, emits P (handler e)) -> emits P (try_catch m handler).
Proof.
  intros Hm Hh h. unfold try_catch.
  specialize (Hm h).
  destruct (m h) as [[a|e] t1]; cbn [snd] in *; [exact Hm|].
  specialize (Hh e (h ++ t1)).
  destruct (handler e (h ++ t1)) as [r t2]. cbn [snd] in *.
  apply Forall_app. split; assumption.
Qed.

End Emits.

Lemma emits_emit (P : event -> Prop) (e : event) : P e -> emits P (emit e).
Proof. intros H h. constructor; [exact H|constructor]. Qed.

Lemma emits_weaken {A} (P Q : event -> Prop) (m : M A) :
  (forall e, P e -> Q e) -> emits P m -> emits Q m.
Proof. intros H Hm h. eapply Forall_impl; [exact H|apply Hm]. Qed.

Lemma loop_emits (env : Env) (config : Config.t) (retries : nat) (backoffMs : float) :
  forall remaining i,
    emits (of_call config) (RequestHandler.loop env config retries backoffMs remaining i).
Proof.
  induction remaining as [|n IH]; intros i.
  - apply emits_ret.
  - cbn [RequestHandler.loop].
    apply emits_bind; [apply emits_emit; exact I|]. intros _ _ _.
    apply emits_bind.
    { intros h. cbn. constructor; [reflexivity|constructor]. }
    intros _ [response|err] _.
    + apply emits_bind; [apply emits_emit; exact I|]. intros. apply emits_ret.
    + destruct (RequestHandler.is_500 (AxiosError.status err)).
      * apply emits_bind; [apply emits_emit; exact I|]. intros _ _ _.
        destruct (Z.of_nat i =? Z.of_nat retries - 1)%Z; [apply emits_ret|].
        apply emits_bind; [apply emits_emit; exact I|]. intros _ _ _.
        apply emits_bind; [apply emits_emit; exact I|]. intros _ _ _.
        apply IH.
      * destruct (Z.of_nat i =? Z.of_nat retries - 1)%Z.
        -- apply emits_bind; [apply emits_emit; exact I|]. intros. apply emits_ret.
        -- apply emits_bind; [apply emits_emit; exact I|]. intros _ _ _.
           apply emits_bind; [apply emits_emit; exact I|]. intros _ _ _.
           apply IH.
Qed.

Lemma session_request_emits (env : Env) (this : LayerEdgeConnection.t)
    (method url : string) (extra : LayerEdgeConnection.extra) (P : event -> Prop) :
  (forall e, of_call (LayerEdgeConnection.finalConfig this method url extra) e -> P e) ->
  emits P (LayerEdgeConnection.makeRequest env this method url extra).
Proof.
  intros H. eapply emits_weaken; [exact H|]. apply loop_emits.
Qed.

Lemma loop_attempts_nonempty (env : Env) (config : Config.t) (retries : nat) (backoffMs : float) :
  forall remaining i h,
    attempts (snd (RequestHandler.loop env config retries backoffMs (S remaining) i h)) <> [].
Proof.
  intros remaining i h. unfold_js.
  case_outcome env config; [cbn; discriminate|].
  destruct (RequestHandler.is_500 (AxiosError.status e));
    destruct (Z.of_nat i =? Z.of_nat retries - 1)%Z; cbn; try discriminate;
    match goal with
    | |- context [RequestHandler.loop ?a ?b ?c ?d ?n ?j ?hh] =>
        destruct (RequestHandler.loop a b c d n j hh)
    end; cbn; discriminate.
Qed.

(** Close a goal about computations that only log, return or throw. *)
Ltac only_logs :=
  unfold prop, String_match, logger.info, logger.warn, logger.error, logger.verbose,
    logger.log;
  repeat first
    [ apply emits_ret
    | apply emits_throw
    | apply emits_emit; exact I
    | apply emits_bind; [|intros ? ? ?]
    | match goal with
      | |- emits _ (match ?x with _ => _ end) => destruct x
      end ].

Section Operations.

Variables (env : Env) (this : LayerEdgeConnection.t).

Local Abbreviation w := (LayerEdgeConnection.wallet this).
Local Abbreviation code := (LayerEdgeConnection.refCode this).


Lemma Date_now_emits (P : event -> Prop) : emits P (Date_now env).
Proof. intros h. constructor. Qed.

Lemma sign_emits (message : string) (P : event -> Prop) :
  P (EvSign w message) -> emits P (sign env w message).
Proof.
  intros H h. unfold sign.
  destruct (signMessage env w message); cbn; constructor; auto.
Qed.

Lemma sign_result (message signature : string) (h : trace) :
  fst (sign env w message h) = Ok signature -> signMessage env w message = Some signature.
Proof.
  unfold sign. destruct (signMessage env w message); cbn; congruence.
Qed.








End Operations.


Lemma newAgent_quiet (env : Env) (proxy : option string) (h : trace) :
  Forall quiet (snd (newAgent env proxy h)).
Proof.
  unfold newAgent, HttpsProxyAgent_new, SocksProxyAgent_new. destruct proxy as [p|].
  - destruct (nonempty p); [|constructor].
    destruct (startsWith p "http://").
    + destruct (HttpsProxyAgent_accepts env p); constructor.
    + destruct (startsWith p "socks4://" || startsWith p "socks5://").
      * destruct (SocksProxyAgent_accepts env p); constructor.
      * repeat constructor.
  - constructor.
Qed.








(** ** Worked runs of the program itself *)

(** A class whose [checkNodeStatus] throws: each turn is cut after that
    call, and the loop goes on to the next wallet. *)
Example turn_cut_at_throw :
  let behave : behaviour :=
    fun name _ => if (name =? "checkNodeStatus")%string then Throw JS.TypeError
                  else Ok true in
  let r := cycles (Scripted behave) [] Scenario.three_wallets 1 [] in
  fst r = Ok Cycling /\
  calls (snd r)
  = [ EvCall "constructor" [JS.Null; JS.Str "a"];
      EvCall "dailyCheckIn" [JS.Bool true];
      EvCall "checkNodeStatus" [];
      EvCall "constructor" [JS.Null; JS.Null];
      EvCall "dailyCheckIn" [JS.Bool true];
      EvCall "checkNodeStatus" [];
      EvCall "constructor" [JS.Null; JS.Str "c"];
      EvCall "dailyCheckIn" [JS.Bool true];
      EvCall "checkNodeStatus" [] ] /\
  waits (snd r) = [5000%float; 5000%float; 5000%float; 3600000%float].
Proof. vm_compute. repeat split; reflexivity. Qed.

(** One cycle over three wallets and two proxies, the node reported as
    running: each wallet's requests go out in the order of the sequence,
    through proxies first, second, first, and the wallet without a key
    acts under the fresh random address. *)
Example one_cycle_requests :
  let r := run (Scenario.configured Scenario.node_running)
               (LayerEdge (Scenario.configured Scenario.node_running)) 1 [] in
  fst r = Ok Cycling /\
  requests (snd r) =
  [ ("post", "https://referralapi.layeredge.io/api/light-node/claim-node-points");
    ("get", "https://referralapi.layeredge.io/api/light-node/node-status/0xa");
    ("post", "https://referralapi.layeredge.io/api/light-node/node-action/0xa/stop");
    ("post", "https://referralapi.layeredge.io/api/light-node/node-action/0xa/start");
    ("get", "https://referralapi.layeredge.io/api/referral/wallet-details/0xa");
    ("post", "https://referralapi.layeredge.io/api/light-node/claim-node-points");
    ("get", "https://referralapi.layeredge.io/api/light-node/node-status/0xfresh");
    ("post", "https://referralapi.layeredge.io/api/light-node/node-action/0xfresh/stop");
    ("post", "https://referralapi.layeredge.io/api/light-node/node-action/0xfresh/start");
    ("get", "https://referralapi.layeredge.io/api/referral/wallet-details/0xfresh");
    ("post", "https://referralapi.layeredge.io/api/light-node/claim-node-points");
    ("get", "https://referralapi.layeredge.io/api/light-node/node-status/0xc");
    ("post", "https://referralapi.layeredge.io/api/light-node/node-action/0xc/stop");
    ("post", "https://referralapi.layeredge.io/api/light-node/node-action/0xc/start");
    ("get", "https://referralapi.layeredge.io/api/referral/wallet-details/0xc") ] /\
  agents (snd r) =
    repeat (Some (HttpsProxyAgent "http://10.0.0.1:8080")) 5
    ++ repeat (Some (SocksProxyAgent "socks5://10.0.0.2:1080")) 5
    ++ repeat (Some (HttpsProxyAgent "http://10.0.0.1:8080")) 5 /\
  waits (snd r) = [3600000%float].
Proof. vm_compute. repeat split; reflexivity. Qed.

(** The same cycle when the server answers every request with the empty
    object: [checkNodeStatus] throws, the rest of each wallet's sequence is
    abandoned, and the loop waits five seconds and moves on. *)
Example one_cycle_abandoned :
  let r := run (Scenario.configured Scenario.empty_object)
               (LayerEdge (Scenario.configured Scenario.empty_object)) 1 [] in
  fst r = Ok Cycling /\
  requests (snd r) =
  [ ("post", "https://referralapi.layeredge.io/api/light-node/claim-node-points");
    ("get", "https://referralapi.layeredge.io/api/light-node/node-status/0xa");
    ("post", "https://referralapi.layeredge.io/api/light-node/claim-node-points");
    ("get", "https://referralapi.layeredge.io/api/light-node/node-status/0xfresh");
    ("post", "https://referralapi.layeredge.io/api/light-node/claim-node-points");
    ("get", "https://referralapi.layeredge.io/api/light-node/node-status/0xc") ] /\
  waits (snd r) = [5000%float; 5000%float; 5000%float; 3600000%float].
Proof. vm_compute. repeat split; reflexivity. Qed.

(** A transport that fails once without an answer and then answers 200:
    the response is returned after two attempts and one 2000 ms wait. *)
Example fails_once_then_succeeds :
  let env := Scenario.flaky 1 (Response.mk 200 Scenario.node_running) in
  let r := RequestHandler.makeRequest env Scenario.ping 30 2000 [] in
  fst r = Ok (Some (Response.mk 200 Scenario.node_running)) /\
  rhythm (snd r) = [Attempt; Wait; Attempt] /\
  waits (snd r) = [2000%float].
Proof. vm_compute. repeat split; reflexivity. Qed.

(** The cooldown cut out of a message text. *)
Example cooldown_of_message :
  cooldownTime "405: Please come back after 11 hours 58 minutes!" = "11 hours 58 minutes"
  /\ cooldownTime "come back later" = "未知时间".
Proof. split; reflexivity. Qed.

(** White space beyond ASCII: a byte-order mark (U+FEFF) before a proxy
    line and a no-break space (U+00A0) after it are trimmed away, and a
    no-break space after "after" lets the cooldown pattern match. *)
Example unicode_white_space :
  trim (bytes [239; 187; 191] ++ "http://10.0.0.1:8080" ++ bytes [194; 160] ++ " ")
    = "http://10.0.0.1:8080" /\
  match_after ("come back after" ++ bytes [194; 160] ++ "2 hours!") = Some "2 hours" /\
  match_after "come back after2 hours!" = None.
Proof. repeat split; vm_compute; reflexivity. Qed.

(** Proxy strings by scheme: [http://] and the two socks schemes get an
    agent, anything else a warning and a direct connection; a URI the agent
    constructor rejects makes [newAgent] throw. *)
Example newAgent_by_scheme :
  let env := Scenario.unreachable in
  newAgent env (Some "http://10.0.0.1:8080") []
    = (Ok (Some (HttpsProxyAgent "http://10.0.0.1:8080")), []) /\
  newAgent env (Some "socks4://10.0.0.2:1080") []
    = (Ok (Some (SocksProxyAgent "socks4://10.0.0.2:1080")), []) /\
  newAgent env (Some "socks5://10.0.0.2:1080") []
    = (Ok (Some (SocksProxyAgent "socks5://10.0.0.2:1080")), []) /\
  newAgent env (Some "https://10.0.0.3:8080") []
    = (Ok None, [EvLog warn "不支持的代理类型: https://10.0.0.3:8080" (JS.Str "")]) /\
  newAgent env (Some "http://") [] = (Throw (JS.LibraryError "new HttpsProxyAgent"), []) /\
  newAgent env None [] = (Ok None, []).
Proof. repeat split; reflexivity. Qed.

(** * Further properties *)

Lemma loop_schedule (env : Env) (config : Config.t) (retries : nat) (backoffMs : float) :
  forall remaining i h, remaining + i = retries ->
    let r := RequestHandler.loop env config retries backoffMs remaining i h in
    waits (snd r) = schedule env backoffMs i (removelast (attempts (snd r))).
Proof.
  induction remaining as [|n IH]; intros i h Hi; [reflexivity|].
  unfold_js. case_outcome env config; [reflexivity|].
  destruct (RequestHandler.is_500 (AxiosError.status e)) eqn:E500.
  - destruct n as [|n].
    + rewrite (isLastRetry_true i retries) by lia. reflexivity.
    + rewrite (isLastRetry_false i retries n) by lia.
      match goal with
      | |- context [RequestHandler.loop env config retries backoffMs (S n) (S i) ?hh] =>
          pose proof (loop_attempts_nonempty env config retries backoffMs n (S i) hh) as Hne;
          specialize (IH (S i) hh ltac:(lia));
          destruct (RequestHandler.loop env config retries backoffMs (S n) (S i) hh) as [r1 t1]
      end.
      cbn [fst snd] in *. cbn [waits attempts].
      destruct (attempts t1) as [|o os] eqn:Ea; [congruence|].
      cbn [removelast] in *. cbn [schedule wait_after]. rewrite E500.
      rewrite IH. reflexivity.
  - destruct n as [|n].
    + rewrite (isLastRetry_true i retries) by lia. reflexivity.
    + rewrite (isLastRetry_false i retries n) by lia.
      match goal with
      | |- context [RequestHandler.loop env config retries backoffMs (S n) (S i) ?hh] =>
          pose proof (loop_attempts_nonempty env config retries backoffMs n (S i) hh) as Hne;
          specialize (IH (S i) hh ltac:(lia));
          destruct (RequestHandler.loop env config retries backoffMs (S n) (S i) hh) as [r1 t1]
      end.
      cbn [fst snd] in *. cbn [waits attempts].
      destruct (attempts t1) as [|o os] eqn:Ea; [congruence|].
      cbn [removelast] in *. cbn [schedule wait_after]. rewrite E500.
      rewrite IH. reflexivity.
Qed.

(** X1: whatever the transport does, a call makes at most [retries]
    attempts and arms one timer after every attempt but the last; the timer
    after the attempt of iteration [i] is the binary64 value of
    [backoffMs * Math.pow(1.5, i) / 1000 * 1000] when that attempt was
    rejected with status 500 and 2000 ms when it was rejected otherwise. *)
Theorem makeRequest_schedule (env : Env) (config : Config.t) (retries : nat)
    (backoffMs : float) (h : trace) :
  let r := RequestHandler.makeRequest env config retries backoffMs h in
  length (attempts (snd r)) <= retries /\
  waits (snd r) = schedule env backoffMs 0 (removelast (attempts (snd r))) /\
  length (waits (snd r)) = length (attempts (snd r)) - 1.
Proof.
  intros r.
  pose proof (makeRequest_verdict env config retries backoffMs h) as V.
  pose proof (loop_schedule env config retries backoffMs retries 0 h ltac:(lia)) as S.
  cbv zeta in V, S. fold (RequestHandler.makeRequest env config retries backoffMs h) in S.
  fold r in V, S.
  assert (Hlen : forall b i l, length (schedule env b i l) = length l).
  { intros b i l. revert i. induction l; intros; cbn; auto. }
  split; [|split].
  - inversion V as [response t failed Ha _ Hlt _ _|t Ha _ _].
    + rewrite Ha, length_app. cbn. lia.
    + lia.
  - exact S.
  - rewrite S, Hlen.
    destruct (attempts (snd r)) as [|o os] using rev_ind; [reflexivity|].
    rewrite removelast_last, length_app. cbn. lia.
Qed.

Lemma loop_first_success (env : Env) (config : Config.t) (retries : nat) (backoffMs : float)
    (base : nat) (response : Response.t) :
  forall k remaining i h,
    k < remaining -> remaining + i = retries ->
    length (attempts h) + k = base ->
    (forall h', length (attempts h') < base ->
                is_rejected (settle config (transport env h' config)) = true) ->
    (forall h', length (attempts h') = base ->
                settle config (transport env h' config) = Resolved response) ->
    let r := RequestHandler.loop env config retries backoffMs remaining i h in
    fst r = Ok (Some response) /\ length (attempts (snd r)) = S k.
Proof.
  induction k as [|k IH]; intros remaining i h Hk Hi Hbase Hrej Hres.
  - destruct remaining as [|n]; [lia|].
    unfold_js.
    match goal with
    | |- context [settle config (transport env ?hh config)] =>
        rewrite (Hres hh) by (rewrite attempts_app; cbn; rewrite length_app; cbn; lia)
    end.
    cbn. split; reflexivity.
  - destruct remaining as [|n]; [lia|].
    unfold_js.
    match goal with
    | |- context [settle config (transport env ?hh config)] =>
        pose proof (Hrej hh ltac:(rewrite attempts_app; cbn; rewrite length_app; cbn; lia)) as Hr;
        destruct (settle config (transport env hh config)) as [r0|e]; [discriminate|]
    end.
    destruct n as [|n]; [lia|].
    rewrite (isLastRetry_false i retries n) by lia.
    destruct (RequestHandler.is_500 (AxiosError.status e));
      match goal with
      | |- context [RequestHandler.loop env config retries backoffMs (S n) (S i) ?hh] =>
          assert (Hb : length (attempts hh) + k = base)
            by (rewrite !attempts_app; cbn; rewrite !length_app; cbn; lia);
          specialize (IH (S n) (S i) hh ltac:(lia) ltac:(lia) Hb Hrej Hres);
          destruct (RequestHandler.loop env config retries backoffMs (S n) (S i) hh) as [r1 t1]
      end;
      destruct IH as [I1 I2];
      cbn [fst snd] in *; (split; [exact I1 | cbn; rewrite I2; reflexivity]).
Qed.

(** X20: the loop body of the second source file, run against the
    stand-in session, constructs the session and calls checkNodeStatus,
    stopNode exactly when checkNodeStatus returned true, connectNode and
    checkNodePoints, in this order; it never calls dailyCheckIn and arms no
    timer. *)
Theorem variant_sequence (answer : script) (proxies : list string)
    (total i : nat) (wallet : Entry.t) (h : trace) :
  let r := Variant.process_wallet (StandIn answer) proxies total i wallet h in
  fst r = Ok tt /\
  waits (snd r) = [] /\
  exists running stopped connected counted,
    calls (snd r) =
    map event_of_call
      ([Construct (select_proxy proxies i) (Entry.privateKey wallet);
        Method "checkNodeStatus" running]
       ++ (if running then [Method "stopNode" stopped] else [])
       ++ [Method "connectNode" connected;
           Method "checkNodePoints" counted]).
Proof.
  unfold Variant.process_wallet, try_catch, bind, StandIn, stand_in_method,
    logger.verbose, logger.info, logger.error, logger.progress, logger.log, emit, ret.
  cbn -[select_proxy string_of_nat String.append].
  match goal with
  | |- context [if answer "checkNodeStatus" ?hh then _ else _] =>
      destruct (answer "checkNodeStatus" hh) eqn:Hrun
  end;
    cbn -[select_proxy string_of_nat String.append];
    (split; [reflexivity|]); (split; [reflexivity|]).
  - eexists true, _, _, _. reflexivity.
  - eexists false, false, _, _. reflexivity.
Qed.

(** X3: with a budget of one attempt the executor makes exactly one
    exchange and arms no timer, whatever comes back: it returns the
    response when axios resolved and [null] when it rejected. *)
Theorem makeRequest_one_attempt (env : Env) (config : Config.t) (backoffMs : float)
    (h : trace) :
  let r := RequestHandler.makeRequest env config 1 backoffMs h in
  exists outcome,
    attempts (snd r) = [outcome] /\
    waits (snd r) = [] /\
    fst r = Ok (match outcome with
                | Resolved response => Some response
                | Rejected _ => None
                end).
Proof.
  unfold RequestHandler.makeRequest. unfold_js.
  case_outcome env config.
  - eexists. repeat split.
  - exists (Rejected e).
    destruct (RequestHandler.is_500 (AxiosError.status e)); repeat split.
Qed.

(** X4: a call of the executor causes only console lines, timers and
    exchanges, and every exchange carries the config the call was given:
    the same method and URL on every attempt. *)
Theorem makeRequest_same_config (env : Env) (config : Config.t) (retries : nat)
    (backoffMs : float) (h : trace) :
  let r := RequestHandler.makeRequest env config retries backoffMs h in
  Forall (of_call config) (snd r) /\
  requests (snd r)
  = repeat (Config.method config, Config.url config) (length (attempts (snd r))).
Proof.
  intros r.
  assert (H : Forall (of_call config) (snd r)) by apply loop_emits.
  split; [exact H|].
  induction H as [|e t He _ IH]; [reflexivity|].
  destruct e; cbn in He |- *; try contradiction; try exact IH.
  subst. rewrite IH. reflexivity.
Qed.

Lemma strip_prefix_app (p s r : string) :
  strip_prefix p s = Some r <-> s = (p ++ r)%string.
Proof.
  revert s. induction p as [|a p IH]; intros s; cbn.
  - split; [intros [= ->]; reflexivity|intros ->; reflexivity].
  - destruct s as [|b s]; [split; discriminate|].
    destruct (Ascii.eqb_spec a b) as [->|Hab].
    + rewrite IH. split; [intros ->; reflexivity|intros [= ->]; reflexivity].
    + split; [discriminate|]. intros [= E _]. congruence.
Qed.

Lemma strip_one_sound (ws : list string) (s w rest : string) :
  strip_one ws s = Some (w, rest) -> In w ws /\ s = (w ++ rest)%string.
Proof.
  induction ws as [|x ws IH]; cbn; [discriminate|].
  destruct (strip_prefix x s) as [r|] eqn:E.
  - intros [= <- <-]. apply strip_prefix_app in E. auto.
  - intros H. destruct (IH H). auto.
Qed.

Lemma strip_one_none (ws : list string) (s : string) :
  strip_one ws s = None <-> (forall w rest, In w ws -> s <> (w ++ rest)%string).
Proof.
  induction ws as [|x ws IH]; cbn.
  - split; [intros _ w rest []|reflexivity].
  - destruct (strip_prefix x s) as [r|] eqn:E.
    + split; [discriminate|]. intros H. exfalso.
      apply strip_prefix_app in E. exact (H x r (or_introl eq_refl) E).
    + rewrite IH. split.
      * intros H w rest [<-|Hin]; [|auto].
        intros E'. apply strip_prefix_app in E'. congruence.
      * intros H w rest Hin. apply H. auto.
Qed.

Lemma length_append (a b : string) :
  String.length (a ++ b) = String.length a + String.length b.
Proof. induction a; cbn; auto. Qed.

Lemma string_app_nil_r (s : string) : (s ++ "")%string = s.
Proof. induction s; cbn; congruence. Qed.

Lemma string_app_assoc (a b c : string) : ((a ++ b) ++ c = a ++ b ++ c)%string.
Proof. induction a; cbn; congruence. Qed.

Lemma leading_sound (ws : list string) :
  Forall (fun w => w <> EmptyString) ws ->
  forall fuel s run rest,
    String.length s <= fuel ->
    leading ws fuel s = (run, rest) ->
    s = (join run ++ rest)%string /\
    Forall (fun w => In w ws) run /\
    strip_one ws rest = None.
Proof.
  intros Hne. induction fuel as [|fuel IH]; intros s run rest Hlen; cbn.
  - intros [= <- <-]. destruct s; [|cbn in Hlen; lia].
    split; [reflexivity|]. split; [constructor|].
    apply strip_one_none. intros w r Hin E.
    rewrite Forall_forall in Hne. apply (Hne w Hin).
    destruct w; [reflexivity|discriminate].
  - destruct (strip_one ws s) as [[w r]|] eqn:E.
    + destruct (strip_one_sound ws s w r E) as [Hin ->].
      destruct (leading ws fuel r) as [run' rest'] eqn:L. intros [= <- <-].
      assert (Hw : w <> EmptyString) by (rewrite Forall_forall in Hne; auto).
      destruct (IH r run' rest') as (-> & Hrun & Hnone); auto.
      { rewrite length_append in Hlen. destruct w; [congruence|]. cbn in Hlen. lia. }
      split; [cbn; rewrite string_app_assoc; reflexivity|].
      split; [constructor; assumption|assumption].
    + intros [= <- <-]. split; [reflexivity|]. split; [constructor|assumption].
Qed.

Lemma leading_fixpoint (ws : list string) (fuel : nat) (s : string) :
  strip_one ws s = None -> leading ws fuel s = ([], s).
Proof. intros H. destruct fuel; cbn; [reflexivity|]. rewrite H. reflexivity. Qed.

Lemma white_space_plain :
  Forall (fun w => w <> EmptyString /\ has_bang w = false) white_space.
Proof. repeat constructor; discriminate. Qed.

Lemma white_space_nonempty : Forall (fun w => w <> EmptyString) white_space.
Proof. eapply Forall_impl; [|exact white_space_plain]. intros w [H _]. exact H. Qed.

Lemma reversed_white_space_nonempty :
  Forall (fun w => w <> EmptyString) (map reverse white_space).
Proof. repeat constructor; discriminate. Qed.

Lemma list_ascii_app (a b : string) :
  list_ascii_of_string (a ++ b) = list_ascii_of_string a ++ list_ascii_of_string b.
Proof. induction a; cbn; congruence. Qed.

Lemma string_of_list_app (a b : list ascii) :
  string_of_list_ascii (a ++ b) = (string_of_list_ascii a ++ string_of_list_ascii b)%string.
Proof. induction a; cbn; congruence. Qed.

Lemma reverse_app (a b : string) : reverse (a ++ b) = (reverse b ++ reverse a)%string.
Proof.
  unfold reverse. rewrite list_ascii_app, rev_app_distr. apply string_of_list_app.
Qed.

Lemma reverse_involutive (s : string) : reverse (reverse s) = s.
Proof.
  unfold reverse. rewrite list_ascii_of_string_of_list_ascii, rev_involutive.
  apply string_of_list_ascii_of_string.
Qed.

Lemma length_reverse (s : string) : String.length (reverse s) = String.length s.
Proof.
  unfold reverse.
  assert (H : forall l, String.length (string_of_list_ascii l) = length l).
  { induction l; cbn; auto. }
  assert (H' : forall t, length (list_ascii_of_string t) = String.length t).
  { induction t; cbn; auto. }
  rewrite H, length_rev, H'. reflexivity.
Qed.

(** [trimStart] removes a run of white-space characters from the front
    and leaves a string that does not start with one. *)
Lemma trimStart_spec (s : string) :
  (exists run, s = (join run ++ trimStart s)%string /\
               Forall (fun w => In w white_space) run) /\
  (forall w rest, In w white_space -> trimStart s <> (w ++ rest)%string).
Proof.
  unfold trimStart.
  destruct (leading white_space (String.length s) s) as [run rest] eqn:L.
  destruct (leading_sound white_space white_space_nonempty _ s run rest (le_n _) L)
    as (E & Hrun & Hnone).
  cbn [snd]. split; [eauto|]. apply strip_one_none. exact Hnone.
Qed.

(** [trimEnd] removes a run of white-space characters from the back and
    leaves a string that does not end with one. *)
Lemma trimEnd_spec (s : string) :
  (exists tail, s = (trimEnd s ++ tail)%string) /\
  (forall w front, In w white_space -> trimEnd s <> (front ++ w)%string).
Proof.
  unfold trimEnd.
  destruct (leading (map reverse white_space) (String.length s) (reverse s))
    as [run rest] eqn:L.
  destruct (leading_sound (map reverse white_space) reversed_white_space_nonempty
              _ (reverse s) run rest (Nat.eq_le_incl _ _ (length_reverse s)) L)
    as (E & Hrun & Hnone).
  cbn [snd]. split.
  - exists (reverse (join run)).
    rewrite <- reverse_app, <- E. symmetry. apply reverse_involutive.
  - intros w front Hin Eq.
    rewrite strip_one_none in Hnone.
    apply (Hnone (reverse w) (reverse front)); [apply in_map; exact Hin|].
    rewrite <- reverse_app, <- Eq. symmetry. apply reverse_involutive.
Qed.

Lemma trimStart_fixpoint (s : string) :
  (forall w rest, In w white_space -> s <> (w ++ rest)%string) -> trimStart s = s.
Proof.
  intros H. unfold trimStart. rewrite leading_fixpoint; [reflexivity|].
  apply strip_one_none. exact H.
Qed.

Lemma trimEnd_fixpoint (s : string) :
  (forall w front, In w white_space -> s <> (front ++ w)%string) -> trimEnd s = s.
Proof.
  intros H. unfold trimEnd. rewrite leading_fixpoint; [apply reverse_involutive|].
  apply strip_one_none. intros w rest Hin E.
  apply in_map_iff in Hin. destruct Hin as (w0 & <- & Hin).
  apply (H w0 (reverse rest) Hin).
  rewrite <- (reverse_involutive s), E, reverse_app, reverse_involutive. reflexivity.
Qed.

Lemma trim_no_space_at_ends (s : string) : no_space_at_ends (trim s).
Proof.
  unfold trim. split.
  - intros w rest Hin E.
    destruct (trimEnd_spec (trimStart s)) as [[tail Ht] _].
    destruct (trimStart_spec s) as [_ Hs].
    apply (Hs w (rest ++ tail)%string Hin).
    rewrite Ht at 1. rewrite E. apply string_app_assoc.
  - apply trimEnd_spec.
Qed.

Lemma trim_idempotent (s : string) : trim (trim s) = trim s.
Proof.
  destruct (trim_no_space_at_ends s) as [H1 H2].
  unfold trim at 1. rewrite (trimStart_fixpoint _ H1). apply trimEnd_fixpoint. exact H2.
Qed.

(** X5: [readFile] never throws.  When the file can be read it logs
    nothing and returns exactly the trimmed lines that are not empty, each
    free of white space at both ends; when it cannot, it logs one error
    line and returns the empty list. *)
Theorem readFile_result (env : Env) (pathFile : string) (h : trace) :
  exists lines,
    fst (readFile env pathFile h) = Ok lines /\
    Forall (fun l => l <> EmptyString /\ trim l = l /\ no_space_at_ends l) lines /\
    match fs_readFile env pathFile with
    | Some datas =>
        snd (readFile env pathFile h) = [] /\
        forall l, In l lines <-> (exists raw, In raw (split_lines datas) /\ l = trim raw)
                                 /\ l <> EmptyString
    | None =>
        lines = [] /\
        snd (readFile env pathFile h)
        = [EvLog error "读取文件错误: ${error.message}" (JS.Str "")]
    end.
Proof.
  unfold readFile. destruct (fs_readFile env pathFile) as [datas|]; cbn.
  - eexists. split; [reflexivity|]. split.
    + apply Forall_forall. intros l Hl. apply filter_In in Hl. destruct Hl as [Hin Hne].
      apply in_map_iff in Hin. destruct Hin as (raw & <- & _).
      split; [|split].
      * intros E. rewrite E in Hne. discriminate.
      * apply trim_idempotent.
      * apply trim_no_space_at_ends.
    + split; [reflexivity|]. intros l. rewrite filter_In, in_map_iff. split.
      * intros [(raw & <- & Hraw) Hne]. split; [eauto|].
        intros E. rewrite E in Hne. discriminate.
      * intros [(raw & Hraw & ->) Hne]. split; [eauto|].
        unfold nonempty. destruct (trim raw); [congruence|reflexivity].
  - exists []. repeat split; constructor.
Qed.

Lemma startsWith_nonempty (p q : string) :
  q <> EmptyString -> startsWith p q = true -> nonempty p = true.
Proof.
  destruct p; [|reflexivity]. destruct q; [congruence|]. cbn. discriminate.
Qed.

Lemma supported_nonempty (p : string) : supported p = true -> nonempty p = true.
Proof.
  unfold supported. intros H.
  apply orb_true_iff in H. destruct H as [H|H];
    [apply orb_true_iff in H; destruct H as [H|H]|];
    eapply startsWith_nonempty; try exact H; discriminate.
Qed.

(** X6: [newAgent] builds an agent exactly for a proxy that starts with
    [http://], [socks4://] or [socks5://] -- an [HttpsProxyAgent] for the
    first, a [SocksProxyAgent] for the other two, from the proxy string
    itself -- and throws exactly when the constructor of that agent rejects
    the string.  It logs one warning exactly for a non-empty proxy with
    another scheme, and gives [null] silently for a null or empty one. *)
Theorem newAgent_result (env : Env) (proxy : option string) (h : trace) :
  ((exists e, fst (newAgent env proxy h) = Throw e) <->
   exists p, proxy = Some p /\ supported p = true /\
             (if startsWith p "http://" then HttpsProxyAgent_accepts env p
              else SocksProxyAgent_accepts env p) = false) /\
  (forall agent, fst (newAgent env proxy h) = Ok agent ->
     (agent <> None <-> exists p, proxy = Some p /\ supported p = true) /\
     (forall uri, agent = Some (HttpsProxyAgent uri) <->
                  proxy = Some uri /\ startsWith uri "http://" = true) /\
     (forall uri, agent = Some (SocksProxyAgent uri) <->
                  proxy = Some uri /\ startsWith uri "http://" = false /\
                  supported uri = true)) /\
  snd (newAgent env proxy h)
  = match proxy with
    | Some p =>
        if nonempty p && negb (supported p)
        then [EvLog warn ("不支持的代理类型: " ++ p) (JS.Str "")]
        else []
    | None => []
    end.
Proof.
  assert (Hsup : forall p, supported p = startsWith p "http://"
                           || (startsWith p "socks4://" || startsWith p "socks5://")).
  { intros p. unfold supported. symmetry. apply orb_assoc. }
  unfold newAgent, HttpsProxyAgent_new, SocksProxyAgent_new.
  destruct proxy as [p|].
  - pose proof (Hsup p) as Hs.
    destruct (nonempty p) eqn:Hne.
    + destruct (startsWith p "http://") eqn:Hh;
        [destruct (HttpsProxyAgent_accepts env p) eqn:Ha
        |destruct (startsWith p "socks4://" || startsWith p "socks5://") eqn:Hk;
         [destruct (SocksProxyAgent_accepts env p) eqn:Ha|]];
        cbn [orb] in Hs; rewrite Hs; cbn;
        repeat split; intros;
        repeat match goal with
               | H : exists _, _ |- _ => destruct H
               | H : _ /\ _ |- _ => destruct H
               | H : Some _ = Some _ |- _ => injection H as H; try subst
               | H : Ok _ = Ok _ |- _ => injection H as H; try subst
               end;
        rewrite ?Hh, ?Ha in *;
        try congruence; eauto 6;
        try (exists p; rewrite ?Hh, ?Ha; auto).
    + assert (Hs' : supported p = false).
      { destruct (supported p) eqn:E; [|reflexivity].
        apply supported_nonempty in E. congruence. }
      assert (Hh : startsWith p "http://" = false).
      { destruct (startsWith p "http://") eqn:E; [|reflexivity].
        apply (startsWith_nonempty p "http://") in E; [congruence|discriminate]. }
      cbn;
        repeat split; intros;
        repeat match goal with
               | H : exists _, _ |- _ => destruct H
               | H : _ /\ _ |- _ => destruct H
               | H : Some _ = Some _ |- _ => injection H as H; try subst
               | H : Ok _ = Ok _ |- _ => injection H as H; try subst
               end;
        rewrite ?Hh in *;
        try congruence; eauto.
  - cbn;
      repeat split; intros;
      repeat match goal with
             | H : exists _, _ |- _ => destruct H
             | H : _ /\ _ |- _ => destruct H
             end;
      try congruence; eauto.
Qed.

Lemma select_proxy_period (proxies : list string) (i : nat) :
  select_proxy proxies (i + length proxies) = select_proxy proxies i.
Proof.
  unfold select_proxy. destruct (length proxies) as [|m] eqn:E; [reflexivity|].
  rewrite <- E.
  replace ((i + length proxies) mod length proxies) with (i mod length proxies); [reflexivity|].
  rewrite <- (Nat.Div0.add_mod_idemp_r i (length proxies)).
  rewrite Nat.Div0.mod_same, Nat.add_0_r. reflexivity.
Qed.

(** X7: the proxy choice is periodic in the wallet index with period
    [proxies.length]; a chosen proxy is the non-empty entry at index
    [i mod proxies.length]; no proxy is chosen exactly when the list is
    empty or that entry is the empty string; below [proxies.length] wallet
    [i] gets entry [i]. *)
Theorem select_proxy_properties (proxies : list string) (i : nat) :
  select_proxy proxies (i + length proxies) = select_proxy proxies i /\
  (forall p, select_proxy proxies i = Some p ->
             nonempty p = true /\
             nth_error proxies (i mod length proxies) = Some p) /\
  (select_proxy proxies i = None <->
   proxies = [] \/ nth_error proxies (i mod length proxies) = Some EmptyString) /\
  (i < length proxies ->
   select_proxy proxies i
   = match nth_error proxies i with
     | Some p => if nonempty p then Some p else None
     | None => None
     end).
Proof.
  split; [apply select_proxy_period|].
  unfold select_proxy.
  destruct proxies as [|p0 rest] eqn:Ep.
  - cbn. repeat split; try discriminate; auto. intros H. lia.
  - rewrite <- Ep. assert (Hlen : length proxies = S (length rest)) by (subst; reflexivity).
    assert (Hlt : i mod length proxies < length proxies)
      by (apply Nat.mod_upper_bound; lia).
    destruct (nth_error proxies (i mod length proxies)) as [p|] eqn:Hn;
      [|apply nth_error_None in Hn; lia].
    destruct (length proxies) as [|m] eqn:El; [discriminate|]. rewrite <- El in *.
    split; [|split].
    + intros q Hq. destruct (nonempty p) eqn:Hp; [|discriminate].
      injection Hq as <-. split; [exact Hp|reflexivity].
    + split.
      * intros H. destruct (nonempty p) eqn:Hp; [discriminate|]. right.
        destruct p; [reflexivity|discriminate].
      * intros [H|H]; [subst; discriminate|]. injection H as ->. reflexivity.
    + intros Hi. rewrite Nat.mod_small in Hn by exact Hi. rewrite Hn. reflexivity.
Qed.

Lemma header_app (name : string) (a b : headers_t) :
  header name (a ++ b) = match header name a with
                         | Some v => Some v
                         | None => header name b
                         end.
Proof.
  induction a as [|[k v] a IH]; [reflexivity|].
  cbn. destruct (k =? name)%string; [reflexivity|exact IH].
Qed.

Lemma header_None_existsb (name : string) (b : headers_t) :
  header name b = None <-> existsb (fun kv' => (fst kv' =? name)%string) b = false.
Proof.
  induction b as [|[k v] b IH]; cbn; [tauto|].
  destruct (k =? name)%string; cbn; [split; discriminate|exact IH].
Qed.

Lemma header_spread (name : string) (a b : headers_t) :
  header name (spread a b) = match header name b with
                             | Some v => Some v
                             | None => header name a
                             end.
Proof.
  unfold spread. rewrite header_app.
  destruct (header name b) as [v|] eqn:Hb.
  - assert (Hf : header name
                   (filter (fun kv => negb (existsb (fun kv' => (fst kv' =? fst kv)%string) b)) a)
                 = None).
    { induction a as [|[k w] a IH]; [reflexivity|]. cbn [filter fst].
      destruct (existsb (fun kv' => (fst kv' =? k)%string) b) eqn:Ex; cbn [negb].
      - exact IH.
      - cbn [header]. destruct (String.eqb_spec k name) as [->|Hk]; [|exact IH].
        apply header_None_existsb in Ex. congruence. }
    rewrite Hf. reflexivity.
  - apply header_None_existsb in Hb.
    assert (Hf : header name
                   (filter (fun kv => negb (existsb (fun kv' => (fst kv' =? fst kv)%string) b)) a)
                 = header name a).
    { induction a as [|[k w] a IH]; [reflexivity|]. cbn [filter fst].
      destruct (String.eqb_spec k name) as [->|Hk].
      - rewrite Hb. cbn. rewrite String.eqb_refl. reflexivity.
      - destruct (existsb (fun kv' => (fst kv' =? k)%string) b); cbn [negb header].
        + apply String.eqb_neq in Hk. rewrite Hk. exact IH.
        + apply String.eqb_neq in Hk. rewrite Hk. exact IH. }
    rewrite Hf. destruct (header name a); reflexivity.
Qed.

Lemma request_as_session (env : Env) (this : LayerEdgeConnection.t)
    (method url : string) (extra : LayerEdgeConnection.extra) :
  LayerEdgeConnection.x_headers extra = None \/
  LayerEdgeConnection.x_headers extra = Some [("Content-Type", "application/json")] ->
  emits (as_session this) (LayerEdgeConnection.makeRequest env this method url extra).
Proof.
  intros Hx. apply session_request_emits.
  intros [] He; cbn in He |- *; try exact I. subst.
  unfold session_config, LayerEdgeConnection.finalConfig.
  cbn [Config.httpsAgent Config.timeout Config.validateStatus Config.headers].
  repeat split. intros name value Hv Hname. rewrite header_spread.
  destruct Hx as [->| ->]; [exact Hv|]. cbn [header].
  destruct (String.eqb_spec "Content-Type" name) as [<-|_]; [congruence|exact Hv].
Qed.

Lemma operations_as_session (env : Env) (this : LayerEdgeConnection.t) :
  Forall (emits (as_session this)) (operations env this).
Proof.
  unfold operations, LayerEdgeConnection.checkInvite, LayerEdgeConnection.registerWallet,
    LayerEdgeConnection.connectNode, LayerEdgeConnection.stopNode,
    LayerEdgeConnection.dailyCheckIn, LayerEdgeConnection.checkNodeStatus,
    LayerEdgeConnection.checkNodePoints.
  repeat (constructor;
          [repeat first
             [ apply emits_try_catch; [|intros; only_logs]
             | apply emits_bind; [apply Date_now_emits|intros ? ? ?]
             | apply emits_bind; [apply sign_emits; exact I|intros ? ? ?]
             | apply emits_bind;
               [apply request_as_session; cbn; auto|intros ? ? ?; only_logs] ]|]).
  constructor.
Qed.

(** X8: every request that any of the seven operations of a constructed
    session sends carries the 60 s timeout, accepts exactly the statuses
    below 500, and keeps every default header of the session (the
    operations add at most a JSON content type). *)
Theorem session_request_config (env : Env) (proxy privateKey : option string)
    (refCode : string) (h0 : trace) (this : LayerEdgeConnection.t) :
  fst (LayerEdgeConnection.new env proxy privateKey refCode h0) = Ok this ->
  Forall (emits standard_request) (operations env this).
Proof.
  intros Hnew.
  destruct (new_shape _ _ _ _ _ _ Hnew) as (_ & _ & _ & Hh & Hv & Ht).
  eapply Forall_impl; [|apply operations_as_session].
  intros op Hop. eapply emits_weaken; [|exact Hop].
  intros [] He; cbn in He |- *; try exact I.
  destruct He as (_ & Htime & Hstatus & Hhead).
  split; [congruence|]. split.
  - intros status. rewrite Hstatus, Hv. reflexivity.
  - intros name value Hdef. apply Hhead; [rewrite Hh; exact Hdef|].
    intros ->. discriminate.
Qed.

(** X9: [checkInvite] returns true exactly when a truthy body came back
    and [data.data.valid] is [true]; it throws a TypeError exactly when a
    truthy body came back without a [data] object to read [valid] from;
    without a truthy body it returns false. *)
Theorem checkInvite_result (env : Env) (this : LayerEdgeConnection.t) (h : trace) :
  exists response,
    fst (invite_request env this h) = Ok response /\
    (fst (LayerEdgeConnection.checkInvite env this h) = Ok true <->
     exists data, LayerEdgeConnection.body response = Some data /\
                  valid_of data = Some (JS.Bool true)) /\
    (fst (LayerEdgeConnection.checkInvite env this h) = Throw JS.TypeError <->
     exists data, LayerEdgeConnection.body response = Some data /\
                  valid_of data = None) /\
    (LayerEdgeConnection.body response = None ->
     fst (LayerEdgeConnection.checkInvite env this h) = Ok false).
Proof.
  destruct (checkInvite_cases env this h) as (response & Hcall & Hcases).
  exists response. split; [exact Hcall|].
  destruct (LayerEdgeConnection.body response) as [data|].
  - destruct (valid_of data) as [v|] eqn:Hv; rewrite Hcases.
    + repeat split; try discriminate.
      * intros [= Hb]. exists data. split; [reflexivity|].
        destruct v as [| |[]| | | |]; try discriminate. exact Hv.
      * intros (d & [= <-] & Hd). rewrite Hv in Hd. injection Hd as ->. reflexivity.
      * intros (d & [= <-] & Hd). congruence.
    + repeat split; try discriminate.
      * intros (d & [= <-] & Hd). congruence.
      * intros _. exists data. split; [reflexivity|exact Hv].
  - rewrite Hcases. repeat split; try discriminate.
    + intros (d & Hd & _). discriminate.
    + intros (d & Hd & _). discriminate.
Qed.

(** X10: [registerWallet] and [checkNodePoints] never throw and return
    true exactly when a response with a truthy body came back;
    [checkNodePoints] then logs [data.data?.nodePoints], or 0 when that is
    absent or falsy. *)
Theorem registerWallet_checkNodePoints_result (env : Env) (this : LayerEdgeConnection.t)
    (h : trace) :
  (exists response,
     fst (register_request env this h) = Ok response /\
     fst (LayerEdgeConnection.registerWallet env this h) = Ok (has_body response)) /\
  (exists response,
     fst (points_request env this h) = Ok response /\
     fst (LayerEdgeConnection.checkNodePoints env this h) = Ok (has_body response) /\
     forall data points,
       LayerEdgeConnection.body response = Some data ->
       points = JS.get_opt (JS.get_opt data "data") "nodePoints" ->
       In (EvLog info (Wallet.address (LayerEdgeConnection.wallet this) ++ " 总积分:")
             (if JS.truthy points then points else JS.Num 0))
          (snd (LayerEdgeConnection.checkNodePoints env this h))).
Proof.
  split.
  - unfold LayerEdgeConnection.registerWallet, register_request, bind, has_body.
    case_request. exists response. split; [reflexivity|].
    destruct (LayerEdgeConnection.body response); reflexivity.
  - unfold LayerEdgeConnection.checkNodePoints, points_request, bind, has_body.
    case_request. exists response. split; [reflexivity|].
    destruct (LayerEdgeConnection.body response) as [data|]; (split; [reflexivity|]).
    + intros d points [= <-] ->. cbn [snd]. apply in_or_app. right. left. reflexivity.
    + discriminate.
Qed.

(** X11: [connectNode] throws exactly when the signer rejects, and then
    sends nothing; otherwise it returns true exactly when a truthy body
    came back whose [message] is the string "node action executed
    successfully". *)
Theorem connectNode_result (env : Env) (this : LayerEdgeConnection.t) (h : trace) :
  let timestamp := now env h in
  let message := node_message "Node activation request for " this timestamp in
  let out := LayerEdgeConnection.connectNode env this h in
  match signMessage env (LayerEdgeConnection.wallet this) message with
  | None =>
      fst out = Throw (JS.LibraryError "signMessage") /\ attempts (snd out) = []
  | Some signature =>
      exists response,
        fst (node_request env this "/start" (Some [("Content-Type", "application/json")])
               timestamp signature
               (h ++ [EvSign (LayerEdgeConnection.wallet this) message])) = Ok response /\
        fst out = Ok (match LayerEdgeConnection.body response with
                      | Some data =>
                          JS.eq_str (JS.get_opt data "message")
                            "node action executed successfully"
                      | None => false
                      end)
  end.
Proof.
  intros timestamp message out. subst out.
  unfold LayerEdgeConnection.connectNode, bind, Date_now, sign.
  fold timestamp. fold (node_message "Node activation request for " this timestamp).
  fold message.
  destruct (signMessage env (LayerEdgeConnection.wallet this) message)
    as [signature|]; [|split; reflexivity].
  unfold node_request. rewrite !app_nil_r.
  case_request. exists response. split; [reflexivity|].
  destruct (LayerEdgeConnection.body response) as [data|]; [|reflexivity].
  destruct (JS.eq_str (JS.get_opt data "message") "node action executed successfully");
    reflexivity.
Qed.

(** X12: [stopNode] throws exactly when the signer rejects, and then
    sends nothing; otherwise it returns true exactly when a response with
    a truthy body came back. *)
Theorem stopNode_result (env : Env) (this : LayerEdgeConnection.t) (h : trace) :
  let timestamp := now env h in
  let message := node_message "Node deactivation request for " this timestamp in
  let out := LayerEdgeConnection.stopNode env this h in
  match signMessage env (LayerEdgeConnection.wallet this) message with
  | None =>
      fst out = Throw (JS.LibraryError "signMessage") /\ attempts (snd out) = []
  | Some signature =>
      exists response,
        fst (node_request env this "/stop" None timestamp signature
               (h ++ [EvSign (LayerEdgeConnection.wallet this) message])) = Ok response /\
        fst out = Ok (has_body response)
  end.
Proof.
  intros timestamp message out. subst out.
  unfold LayerEdgeConnection.stopNode, bind, Date_now, sign.
  fold timestamp. fold (node_message "Node deactivation request for " this timestamp).
  fold message.
  destruct (signMessage env (LayerEdgeConnection.wallet this) message)
    as [signature|]; [|split; reflexivity].
  unfold node_request, has_body. rewrite !app_nil_r.
  case_request. exists response. split; [reflexivity|].
  destruct (LayerEdgeConnection.body response) as [data|]; reflexivity.
Qed.

(** X13: take a wallets.json that is missing, unreadable, or an array of
    wallet objects.  Then, for any session class, [run] goes on cycling
    exactly when the array is not empty; when the file is missing,
    unreadable or an empty array, [run] ends with [process.exit(1)] after
    console lines only.  It never throws. *)
Theorem run_status (env : Env) (C : Connection) (n : nat) (h : trace) :
  match wallets_json env with
  | Parsed (_ :: _) => fst (run env C n h) = Ok Cycling
  | _ =>
      fst (run env C n h) = Ok (Exited 1) /\
      exists logs, snd (run env C n h) = logs ++ [EvExit 1] /\ Forall is_log logs
  end.
Proof.
  cbv beta iota delta [run try_catch bind readFile readWallets logger.info logger.warn
      logger.error logger.log emit ret throw].
  destruct (wallets_json env) as [| |[|w ws]];
    destruct (fs_readFile env "proxy.txt") as [datas|];
    try (destruct (length (filter nonempty (map trim (split_lines datas))) =? 0)%nat);
    cbn [fst snd app length Nat.eqb];
    try (split; [reflexivity|];
         match goal with
         | |- exists logs, ?t = logs ++ _ /\ _ => exists (removelast t)
         end; cbn [removelast]; (split; [reflexivity | repeat constructor]));
    match goal with
    | |- context [cycles C ?ps ?wl n ?hh] =>
        pose proof (cycles_returns C ps wl n hh) as R;
        destruct (cycles C ps wl n hh) as [r t];
        cbn [fst] in R; subst r; reflexivity
    end.
Qed.

Lemma process_wallet_StandIn_waits (answer : script) (proxies : list string)
    (total i : nat) (wallet : Entry.t) (h : trace) :
  waits (snd (process_wallet (StandIn answer) proxies total i wallet h)) = [].
Proof.
  unfold process_wallet, try_catch, bind, StandIn, stand_in_method,
    logger.verbose, logger.info, logger.error, logger.progress, logger.log, emit, ret.
  cbn -[select_proxy string_of_nat String.append].
  match goal with
  | |- context [if answer "checkNodeStatus" ?hh then _ else _] =>
      destruct (answer "checkNodeStatus" hh)
  end; reflexivity.
Qed.

Lemma for_wallets_StandIn_waits (answer : script) (proxies : list string) (total : nat)
    (wallets : list Entry.t) :
  forall i h, waits (snd (for_wallets (StandIn answer) proxies total i wallets h)) = [].
Proof.
  induction wallets as [|wallet rest IH]; intros i h; [reflexivity|].
  cbn [for_wallets]. unfold bind.
  pose proof (process_wallet_returns (StandIn answer) proxies total i wallet h) as R.
  pose proof (process_wallet_StandIn_waits answer proxies total i wallet h) as W.
  destruct (process_wallet (StandIn answer) proxies total i wallet h) as [r1 t1].
  cbn [fst snd] in R, W. subst r1.
  specialize (IH (S i) (h ++ t1)).
  destruct (for_wallets (StandIn answer) proxies total (S i) rest (h ++ t1)) as [r2 t2].
  cbn [snd] in *. rewrite waits_app, W, IH. reflexivity.
Qed.

(** X14: when no step throws (the stand-in session), the only timers of
    [n] cycles are the [n] one-hour waits that end the cycles. *)
Theorem cycles_StandIn_waits (answer : script) (proxies : list string)
    (wallets : list Entry.t) (n : nat) (h : trace) :
  waits (snd (cycles (StandIn answer) proxies wallets n h)) = repeat 3600000%float n.
Proof.
  revert h. induction n as [|n IH]; intros h; [reflexivity|].
  cbn [cycles]. unfold bind.
  pose proof (for_wallets_returns (StandIn answer) proxies (length wallets) wallets 0 h) as R.
  pose proof (for_wallets_StandIn_waits answer proxies (length wallets) wallets 0 h) as W.
  destruct (for_wallets (StandIn answer) proxies (length wallets) 0 wallets h) as [r1 t1].
  cbn [fst snd] in R, W. subst r1.
  unfold logger.warn, logger.log, delay, emit.
  match goal with
  | |- context [cycles _ _ _ n ?hh] =>
      specialize (IH hh); destruct (cycles (StandIn answer) proxies wallets n hh) as [r2 t2]
  end.
  cbn [fst snd] in *. rewrite !waits_app, W. cbn [waits app repeat]. rewrite IH.
  reflexivity.
Qed.

(** X15: a wallet whose private key the wallet library rejects costs one
    turn: the constructor's exception is caught, no message is signed, no
    request is sent, the wallet is reported as failed, and the loop waits
    five seconds and returns. *)
Theorem rejected_key_turn (env : Env) (proxies : list string) (total i : nat)
    (wallet : Entry.t) (key : string) (h : trace) :
  Entry.privateKey wallet = Some key ->
  nonempty key = true ->
  wallet_of_key env key = None ->
  let r := process_wallet (LayerEdge env) proxies total i wallet h in
  fst r = Ok tt /\
  attempts (snd r) = [] /\
  waits (snd r) = [5000%float] /\
  In (EvProgress (Entry.address wallet) "钱包处理失败" "failed") (snd r) /\
  Forall (fun e => match e with EvSign _ _ => False | _ => True end) (snd r).
Proof.
  intros Hkey Hne Hrej r. subst r.
  unfold process_wallet, LayerEdge, LayerEdgeConnection.new, try_catch, bind.
  rewrite Hkey, Hne, Hrej.
  unfold logger.verbose, logger.error, logger.progress, logger.log, delay, emit, throw.
  cbn [fst snd].
  match goal with
  | |- context [(if given ?p then newAgent ?env ?p else ret None) ?hh] =>
      assert (Ha : exists ra t1,
                 (if given p then newAgent env p else ret None) hh = (ra, t1) /\
                 Forall quiet t1)
  end.
  { destruct (given (select_proxy proxies i)).
    - match goal with
      | |- context [newAgent ?env ?p ?hh] =>
          pose proof (newAgent_quiet env p hh) as Hq;
          destruct (newAgent env p hh) as [ra t1]
      end.
      cbn in Hq. eauto.
    - exists (Ok None), []. split; [reflexivity|constructor]. }
  destruct Ha as (ra & t1 & -> & Hq).
  assert (Hat : attempts t1 = [] /\ waits t1 = [] /\
                Forall (fun e => match e with EvSign _ _ => False | _ => True end) t1).
  { clear -Hq. induction Hq as [|e t He _ IH]; [repeat split; constructor|].
    destruct e; cbn in He; try contradiction. cbn.
    destruct IH as (I1 & I2 & I3). repeat split; auto. }
  destruct Hat as (A1 & A2 & A3).
  destruct ra as [agent|e]; cbn [fst snd app];
    (split; [reflexivity|]); rewrite ?app_nil_r; repeat split.
  - cbn [attempts]. rewrite attempts_app, A1. reflexivity.
  - cbn [waits]. rewrite waits_app, A2. reflexivity.
  - right. apply in_or_app. right. right. left. reflexivity.
  - constructor; [exact I|]. apply Forall_app. split; [exact A3|repeat constructor].
  - cbn [attempts]. rewrite attempts_app, A1. reflexivity.
  - cbn [waits]. rewrite waits_app, A2. reflexivity.
  - right. apply in_or_app. right. right. left. reflexivity.
  - constructor; [exact I|]. apply Forall_app. split; [exact A3|repeat constructor].
Qed.

Section SessionEvents.

Variables (env : Env) (this : LayerEdgeConnection.t).

Lemma request_by_session (method url : string) (extra : LayerEdgeConnection.extra) :
  sent_for env (LayerEdgeConnection.wallet this) (LayerEdgeConnection.refCode this)
           (LayerEdgeConnection.finalConfig this method url extra) ->
  emits (by_session env this)
        (LayerEdgeConnection.makeRequest env this method url extra).
Proof.
  intros Hs. apply session_request_emits.
  intros [] He; cbn in He |- *; try exact I; try contradiction.
  subst. split; [eauto|exact Hs].
Qed.

Lemma dailyCheckIn_by_session :
  emits (by_session env this) (LayerEdgeConnection.dailyCheckIn env this).
Proof.
  unfold LayerEdgeConnection.dailyCheckIn.
  apply emits_try_catch; [|intros; only_logs].
  apply emits_bind; [apply Date_now_emits|]. intros _ timestamp _.
  apply emits_bind.
  { apply sign_emits. split; [reflexivity|].
    exists "I am claiming my daily node point for ", timestamp. reflexivity. }
  intros h signature Hsig. apply sign_result in Hsig.
  apply emits_bind; [|intros ? ? ?; only_logs].
  apply request_by_session.
  apply claim_node_points with (purpose := "I am claiming my daily node point for ")
                               (timestamp := timestamp) (signature := signature); auto.
Qed.

Lemma checkNodeStatus_by_session :
  emits (by_session env this) (LayerEdgeConnection.checkNodeStatus env this).
Proof.
  unfold LayerEdgeConnection.checkNodeStatus.
  apply emits_bind; [|intros ? ? ?; only_logs].
  apply request_by_session. apply node_status; reflexivity.
Qed.

Lemma checkNodePoints_by_session :
  emits (by_session env this) (LayerEdgeConnection.checkNodePoints env this).
Proof.
  unfold LayerEdgeConnection.checkNodePoints.
  apply emits_bind; [|intros ? ? ?; only_logs].
  apply request_by_session. apply wallet_details; reflexivity.
Qed.

Lemma connectNode_by_session :
  emits (by_session env this) (LayerEdgeConnection.connectNode env this).
Proof.
  unfold LayerEdgeConnection.connectNode.
  apply emits_bind; [apply Date_now_emits|]. intros _ timestamp _.
  apply emits_bind.
  { apply sign_emits. split; [reflexivity|].
    exists "Node activation request for ", timestamp. reflexivity. }
  intros h signature Hsig. apply sign_result in Hsig.
  apply emits_bind; [|intros ? ? ?; only_logs].
  apply request_by_session.
  apply node_action with (purpose := "Node activation request for ")
                         (action := "/start") (timestamp := timestamp)
                         (signature := signature); auto.
Qed.

Lemma stopNode_by_session :
  emits (by_session env this) (LayerEdgeConnection.stopNode env this).
Proof.
  unfold LayerEdgeConnection.stopNode.
  apply emits_bind; [apply Date_now_emits|]. intros _ timestamp _.
  apply emits_bind.
  { apply sign_emits. split; [reflexivity|].
    exists "Node deactivation request for ", timestamp. reflexivity. }
  intros h signature Hsig. apply sign_result in Hsig.
  apply emits_bind; [|intros ? ? ?; only_logs].
  apply request_by_session.
  apply node_action with (purpose := "Node deactivation request for ")
                         (action := "/stop") (timestamp := timestamp)
                         (signature := signature); auto.
Qed.

End SessionEvents.

(** What [new LayerEdgeConnection(proxy, privateKey)] gives [run]. *)
Lemma LayerEdge_result (env : Env) (proxy privateKey : option string) (h : trace)
    (socket : Session) :
  fst (LayerEdge env proxy privateKey h) = Ok socket ->
  exists this,
    fst (LayerEdgeConnection.new env proxy privateKey
           LayerEdgeConnection.default_refCode h) = Ok this /\
    socket = {| dailyCheckIn := LayerEdgeConnection.dailyCheckIn env this;
                checkNodeStatus := LayerEdgeConnection.checkNodeStatus env this;
                stopNode := LayerEdgeConnection.stopNode env this;
                connectNode := LayerEdgeConnection.connectNode env this;
                checkNodePoints := LayerEdgeConnection.checkNodePoints env this |}.
Proof.
  unfold LayerEdge, bind.
  destruct (LayerEdgeConnection.new env proxy privateKey
              LayerEdgeConnection.default_refCode h) as [[this|e] t]; cbn; [|discriminate].
  intros [= <-]. exists this. split; reflexivity.
Qed.

Lemma new_emits_logs (env : Env) (proxy privateKey : option string) (refCode : string)
    (P : event -> Prop) :
  (forall lvl message value, P (EvLog lvl message value)) ->
  emits P (LayerEdgeConnection.new env proxy privateKey refCode).
Proof.
  intros Hlog. unfold LayerEdgeConnection.new.
  apply emits_bind.
  { destruct (given proxy); [|apply emits_ret].
    intros h. eapply Forall_impl; [|apply newAgent_quiet].
    intros [] Hq; cbn in Hq; try contradiction. apply Hlog. }
  intros _ agent _. apply emits_bind.
  { destruct privateKey as [key|]; [|intros h; constructor].
    destruct (nonempty key); [|intros h; constructor].
    destruct (wallet_of_key env key); [apply emits_ret|apply emits_throw]. }
  intros _ w _. apply emits_bind; [apply emits_emit; apply Hlog|].
  intros. apply emits_ret.
Qed.

(** The events of one wallet's turn with the class of the program. *)
Lemma process_wallet_emits (env : Env) (proxies : list string) (total i : nat)
    (wallet : Entry.t) (P : event -> Prop) :
  (forall lvl message value, P (EvLog lvl message value)) ->
  (forall a b c, P (EvProgress a b c)) ->
  (forall ms, P (EvTimeout ms)) ->
  (forall this h',
     fst (LayerEdgeConnection.new env (select_proxy proxies i) (Entry.privateKey wallet)
            LayerEdgeConnection.default_refCode h') = Ok this ->
     forall e, by_session env this e -> P e) ->
  emits P (process_wallet (LayerEdge env) proxies total i wallet).
Proof.
  intros Hlog Hprog Htime Hsess. unfold process_wallet.
  apply emits_try_catch.
  2:{ intros e. unfold logger.error, logger.progress, logger.log, delay.
      apply emits_bind; [apply emits_emit; apply Hlog|]. intros _ _ _.
      apply emits_bind; [apply emits_emit; apply Hprog|]. intros _ _ _.
      apply emits_emit; apply Htime. }
  unfold logger.verbose, logger.info, logger.progress, logger.log.
  apply emits_bind; [apply emits_emit; apply Hlog|]. intros _ _ _.
  apply emits_bind.
  { unfold LayerEdge. apply emits_bind; [apply new_emits_logs; exact Hlog|].
    intros. apply emits_ret. }
  intros h' socket Hsocket.
  apply LayerEdge_result in Hsocket. destruct Hsocket as (this & Hnew & ->).
  specialize (Hsess this h' Hnew). cbn [dailyCheckIn checkNodeStatus stopNode connectNode
    checkNodePoints].
  apply emits_bind; [apply emits_emit; apply Hprog|]. intros _ _ _.
  apply emits_bind; [apply emits_emit; apply Hlog|]. intros _ _ _.
  apply emits_bind; [apply emits_emit; apply Hprog|]. intros _ _ _.
  apply emits_bind;
    [eapply emits_weaken; [exact Hsess|apply dailyCheckIn_by_session]|]. intros _ _ _.
  apply emits_bind; [apply emits_emit; apply Hprog|]. intros _ _ _.
  apply emits_bind;
    [eapply emits_weaken; [exact Hsess|apply checkNodeStatus_by_session]|].
  intros _ isRunning _.
  apply emits_bind.
  { destruct isRunning; [|apply emits_ret].
    apply emits_bind; [apply emits_emit; apply Hprog|]. intros _ _ _.
    apply emits_bind;
      [eapply emits_weaken; [exact Hsess|apply stopNode_by_session]|].
    intros. apply emits_ret. }
  intros _ _ _.
  apply emits_bind; [apply emits_emit; apply Hprog|]. intros _ _ _.
  apply emits_bind;
    [eapply emits_weaken; [exact Hsess|apply connectNode_by_session]|]. intros _ _ _.
  apply emits_bind; [apply emits_emit; apply Hprog|]. intros _ _ _.
  apply emits_bind;
    [eapply emits_weaken; [exact Hsess|apply checkNodePoints_by_session]|]. intros _ _ _.
  apply emits_emit; apply Hprog.
Qed.

Lemma newAgent_any_history (env : Env) (proxy : option string) (h h' : trace) :
  fst (newAgent env proxy h) = fst (newAgent env proxy h').
Proof.
  unfold newAgent, HttpsProxyAgent_new, SocksProxyAgent_new.
  destruct proxy as [p|]; [|reflexivity].
  destruct (nonempty p); [|reflexivity].
  destruct (startsWith p "http://");
    [destruct (HttpsProxyAgent_accepts env p); reflexivity|].
  destruct (startsWith p "socks4://" || startsWith p "socks5://"); [|reflexivity].
  destruct (SocksProxyAgent_accepts env p); reflexivity.
Qed.

Lemma new_configured (env : Env) (proxy : option string) (key refCode : string)
    (w : Wallet.t) (agent : option agent) (h : trace) (this : LayerEdgeConnection.t) :
  nonempty key = true -> wallet_of_key env key = Some w ->
  fst (newAgent env proxy []) = Ok agent ->
  fst (LayerEdgeConnection.new env proxy (Some key) refCode h) = Ok this ->
  LayerEdgeConnection.wallet this = w /\
  LayerEdgeConnection.refCode this = refCode /\
  forall method url extra,
    Config.httpsAgent (LayerEdgeConnection.finalConfig this method url extra) = agent.
Proof.
  intros Hne Hw Hagent. unfold LayerEdgeConnection.new, bind. rewrite Hne, Hw.
  assert (Ha : exists t1, (if given proxy then newAgent env proxy else ret None) h
                          = (Ok agent, t1)).
  { destruct (given proxy) eqn:Hg.
    - rewrite (newAgent_any_history env proxy [] h) in Hagent.
      destruct (newAgent env proxy h) as [r t1]. cbn in Hagent. subst. eauto.
    - cbn. destruct proxy as [p|]; cbn in Hg, Hagent.
      + unfold newAgent in Hagent. rewrite Hg in Hagent. cbn in Hagent.
        injection Hagent as <-. exists []. reflexivity.
      + injection Hagent as <-. exists []. reflexivity. }
  destruct Ha as (t1 & ->). cbn. intros [= <-]. cbn. repeat split.
Qed.

(** X16: in the turn of a wallet whose key the library accepts as [w],
    every signature is by [w] over a message naming [w]'s address, and
    every request is one of the API's requests made for [w] and goes
    through the agent [newAgent] builds for the proxy chosen for that
    index; the turn never exits the process. *)
Theorem configured_wallet_turn (env : Env) (proxies : list string) (total i : nat)
    (wallet : Entry.t) (key : string) (w : Wallet.t) (agent : option agent) (h : trace) :
  Entry.privateKey wallet = Some key ->
  nonempty key = true ->
  wallet_of_key env key = Some w ->
  fst (newAgent env (select_proxy proxies i) []) = Ok agent ->
  Forall (in_turn env w agent)
         (snd (process_wallet (LayerEdge env) proxies total i wallet h)).
Proof.
  intros Hkey Hne Hw Hagent.
  apply process_wallet_emits; try (intros; exact I).
  intros this h' Hnew e He. rewrite Hkey in Hnew.
  destruct (new_configured _ _ _ _ _ _ _ _ Hne Hw Hagent Hnew) as (Hwal & Hcode & Hag).
  destruct e; cbn in He |- *; try exact I; try contradiction.
  - destruct He as ((method & url & extra & ->) & Hs).
    split; [apply Hag|]. rewrite Hwal, Hcode in Hs. exact Hs.
  - rewrite Hwal in He. exact He.
Qed.

Lemma by_session_benign (env : Env) (this : LayerEdgeConnection.t) (e : event) :
  by_session env this e -> benign e.
Proof. destruct e; cbn; auto. Qed.

Lemma for_wallets_benign (env : Env) (proxies : list string) (total : nat)
    (wallets : list Entry.t) :
  forall i, emits benign (for_wallets (LayerEdge env) proxies total i wallets).
Proof.
  induction wallets as [|wallet rest IH]; intros i; [apply emits_ret|].
  cbn [for_wallets]. apply emits_bind; [|intros; apply IH].
  apply process_wallet_emits; try (intros; exact I).
  intros this h' _ e. apply by_session_benign.
Qed.

Lemma cycles_benign (env : Env) (proxies : list string) (wallets : list Entry.t) :
  forall n, emits benign (cycles (LayerEdge env) proxies wallets n).
Proof.
  induction n as [|n IH]; [apply emits_ret|].
  cbn [cycles]. apply emits_bind; [apply for_wallets_benign|]. intros _ _ _.
  unfold logger.warn, logger.log, delay.
  apply emits_bind; [apply emits_emit; exact I|]. intros _ _ _.
  apply emits_bind; [apply emits_emit; exact I|]. intros _ _ _.
  apply IH.
Qed.

(** What [run] does, for any session class: either it ends at startup with
    console lines and [process.exit(1)], or it logs and enters the loop. *)
Lemma run_trace (env : Env) (C : Connection) (n : nat) (h : trace) :
  (fst (run env C n h) = Ok (Exited 1) /\
   exists logs, snd (run env C n h) = logs ++ [EvExit 1] /\ Forall is_log logs) \/
  (exists logs proxies wallets hh,
     Forall is_log logs /\
     run env C n h = (Ok Cycling, logs ++ snd (cycles C proxies wallets n hh))).
Proof.
  cbv beta iota delta [run try_catch bind readFile readWallets logger.info logger.warn
      logger.error logger.log emit ret throw].
  destruct (wallets_json env) as [| |[|w ws]];
    destruct (fs_readFile env "proxy.txt") as [datas|];
    try (destruct (length (filter nonempty (map trim (split_lines datas))) =? 0)%nat);
    cbn [fst snd app length Nat.eqb];
    try (left; split; [reflexivity|];
         match goal with
         | |- exists logs, ?t = logs ++ _ /\ _ => exists (removelast t)
         end; cbn [removelast]; (split; [reflexivity | repeat constructor]));
    right;
    match goal with
    | |- context [cycles C ?ps ?wl n ?hh] =>
        pose proof (cycles_returns C ps wl n hh) as R;
        destruct (cycles C ps wl n hh) as [r t] eqn:E;
        cbn [fst] in R; subst r; cbn [fst snd app];
        match goal with
        | |- exists logs ps' wl' hh', _ /\ (_, ?tr) = _ =>
            let p := prefix_of tr t in exists p, ps, wl, hh
        end;
        rewrite E; (split; [repeat constructor|reflexivity])
    end.
Qed.

(** X17: take a wallets.json that is missing, unreadable, or an array of
    wallet objects.  Then [run] with the program's own class either
    cycles, and its trace holds no [process.exit], or ends at startup with
    console lines followed by [process.exit(1)] as the last event. *)
Theorem run_exits_only_at_startup (env : Env) (n : nat) (h : trace) :
  let r := run env (LayerEdge env) n h in
  (fst r = Ok Cycling /\ Forall benign (snd r)) \/
  (fst r = Ok (Exited 1) /\
   exists logs, snd r = logs ++ [EvExit 1] /\ Forall is_log logs).
Proof.
  intros r. subst r.
  destruct (run_trace env (LayerEdge env) n h) as [Hexit|(logs & ps & wl & hh & Hlogs & ->)].
  - right. exact Hexit.
  - left. split; [reflexivity|]. cbn [snd]. apply Forall_app. split.
    + eapply Forall_impl; [|exact Hlogs]. intros [] He; cbn in *; auto.
    + apply cycles_benign.
Qed.

Lemma span_space_app (s : string) (ws : list string) (rest : string) :
  span_space s = (ws, rest) ->
  s = (join ws ++ rest)%string /\ Forall (fun w => In w white_space) ws.
Proof.
  unfold span_space. intros L.
  destruct (leading_sound white_space white_space_nonempty _ s ws rest (le_n _) L)
    as (E & Hrun & _).
  auto.
Qed.

Lemma until_bang_app (s g : string) :
  until_bang s = Some g ->
  has_bang g = false /\ exists post, s = (g ++ "!" ++ post)%string.
Proof.
  revert g. induction s as [|c s IH]; intros g; cbn; [discriminate|].
  destruct (Ascii.eqb_spec c "!"%char) as [->|Hc].
  - intros [= <-]. split; [reflexivity|]. exists s. reflexivity.
  - destruct (until_bang s) as [g'|]; [|discriminate]. cbn. intros [= <-].
    destruct (IH g' eq_refl) as [Hb [post ->]]. split.
    + cbn. apply Ascii.eqb_neq in Hc. rewrite Hc, Hb. reflexivity.
    + exists post. reflexivity.
Qed.

Lemma join_app (a b : list string) : join (a ++ b) = (join a ++ join b)%string.
Proof. induction a as [|x a IH]; cbn; [reflexivity|]. rewrite IH, string_app_assoc. reflexivity. Qed.

Lemma group_after_sound (r g : string) :
  group_after r = Some g ->
  g <> EmptyString /\ has_bang g = false /\
  exists ws post, r = (join ws ++ g ++ "!" ++ post)%string /\
                  ws <> [] /\ Forall (fun w => In w white_space) ws.
Proof.
  unfold group_after. destruct (span_space r) as [ws rest] eqn:E.
  apply span_space_app in E. destruct E as [-> Hws].
  destruct ws as [|c more]; [discriminate|].
  destruct (until_bang rest) as [g0|] eqn:U; [|discriminate].
  apply until_bang_app in U. destruct U as [Hb [post ->]].
  destruct g0 as [|x g0].
  - destruct more as [|y more]; [discriminate|]. intros [= <-].
    assert (Hsplit : c :: y :: more
                     = removelast (c :: y :: more) ++ [last (c :: y :: more) EmptyString])
      by (apply app_removelast_last; discriminate).
    assert (Hlast : In (last (c :: y :: more) EmptyString) white_space).
    { rewrite Forall_forall in Hws. apply Hws. rewrite Hsplit at 2.
      apply in_or_app. right. left. reflexivity. }
    pose proof white_space_plain as Hp. rewrite Forall_forall in Hp.
    destruct (Hp _ Hlast) as [Hne Hnb].
    split; [exact Hne|]. split; [exact Hnb|].
    exists (removelast (c :: y :: more)), post. split; [|split].
    + rewrite Hsplit at 1. rewrite join_app. cbn [join].
      rewrite string_app_nil_r, string_app_assoc. reflexivity.
    + cbn. discriminate.
    + rewrite Hsplit in Hws. apply Forall_app in Hws. apply Hws.
  - intros [= <-]. split; [discriminate|]. split; [exact Hb|].
    exists (c :: more), post. split; [reflexivity|]. split; [discriminate|exact Hws].
Qed.

Lemma match_after_shape (s g : string) :
  match_after s = Some g ->
  g <> EmptyString /\ has_bang g = false /\
  exists before ws rest,
    s = (before ++ "after" ++ join ws ++ g ++ "!" ++ rest)%string /\
    ws <> [] /\ Forall (fun w => In w white_space) ws.
Proof.
  induction s as [|c s IH].
  - cbn. discriminate.
  - cbn [match_after].
    destruct (match strip_prefix "after" (String c s) with
              | Some r => group_after r
              | None => None
              end) as [g0|] eqn:Hhere.
    + intros [= <-].
      destruct (strip_prefix "after" (String c s)) as [r|] eqn:Hp; [|discriminate].
      apply strip_prefix_app in Hp.
      destruct (group_after_sound r g0 Hhere) as (Hne & Hb & ws & post & -> & Hw & Hs).
      split; [exact Hne|]. split; [exact Hb|].
      exists EmptyString, ws, post. split; [exact Hp|]. split; assumption.
    + intros H. destruct (IH H) as (Hne & Hb & before & ws & rest & -> & Hw & Hs).
      split; [exact Hne|]. split; [exact Hb|].
      exists (String c before), ws, rest. split; [reflexivity|]. split; assumption.
Qed.

Lemma match_after_none_without_bang (s : string) :
  has_bang s = false -> match_after s = None.
Proof.
  intros H. destruct (match_after s) as [g|] eqn:E; [|reflexivity].
  destruct (match_after_shape s g E) as (_ & _ & before & ws & rest & -> & _).
  exfalso. clear E.
  assert (Happ : forall a b, has_bang (a ++ b)%string = has_bang a || has_bang b).
  { intros a b. induction a as [|x a IH]; cbn; [reflexivity|]. rewrite IH.
    apply orb_assoc. }
  rewrite !Happ in H. cbn in H. rewrite !orb_true_r in H. discriminate.
Qed.

(** X18: when [/after\s+([^!]+)!/] matches, group 1 is not empty, holds
    no ['!'], and the text reads: something, "after", at least one
    white-space character, the group, ['!'], something. *)
Theorem match_after_sound (s g : string) :
  match_after s = Some g ->
  g <> EmptyString /\ has_bang g = false /\
  exists before ws rest,
    s = (before ++ "after" ++ join ws ++ g ++ "!" ++ rest)%string /\
    ws <> [] /\ Forall (fun w => In w white_space) ws.
Proof. apply match_after_shape. Qed.

(** X19: the cooldown shown by [dailyCheckIn] is the fallback text exactly
    when the pattern does not match, which is the case for every message
    without a ['!']; otherwise it is the matched group trimmed, with no
    white space at either end. *)
Theorem cooldownTime_shape (text : string) :
  (match_after text = None /\ cooldownTime text = "未知时间") \/
  (exists g, match_after text = Some g /\
             has_bang text = true /\
             cooldownTime text = trim g /\
             no_space_at_ends (cooldownTime text)).
Proof.
  unfold cooldownTime. destruct (match_after text) as [g|] eqn:E.
  - right. exists g. split; [reflexivity|]. split.
    + destruct (has_bang text) eqn:Hb; [reflexivity|].
      rewrite (match_after_none_without_bang text Hb) in E. discriminate.
    + split; [reflexivity|apply trim_no_space_at_ends].
  - left. split; reflexivity.
Qed.

(** X2: when the transport rejects the first [k] exchanges of a call and
    resolves the next one, and the budget allows more than [k] attempts,
    the call returns that response after exactly [k + 1] attempts. *)
Theorem makeRequest_first_success (env : Env) (config : Config.t) (retries : nat)
    (backoffMs : float) (h : trace) (k : nat) (response : Response.t) :
  k < retries ->
  (forall h', length (attempts h') < length (attempts h) + k ->
              is_rejected (settle config (transport env h' config)) = true) ->
  (forall h', length (attempts h') = length (attempts h) + k ->
              settle config (transport env h' config) = Resolved response) ->
  let r := RequestHandler.makeRequest env config retries backoffMs h in
  fst r = Ok (Some response) /\ length (attempts (snd r)) = S k.
Proof.
  intros Hk Hrej Hres.
  apply (loop_first_success env config retries backoffMs (length (attempts h) + k)
           response k retries 0 h Hk); auto.
Qed.

Lemma makeRequest_first_success_witness :
  2 < 30 /\
  let r := RequestHandler.makeRequest
             (Scenario.flaky 2 (Response.mk 200 Scenario.node_running))
             Scenario.ping 30 2000 [] in
  fst r = Ok (Some (Response.mk 200 Scenario.node_running)) /\
  length (attempts (snd r)) = 3.
Proof.
  assert (H1 : 2 < 30) by lia.
  split; [exact H1|].
  apply (makeRequest_first_success
           (Scenario.flaky 2 (Response.mk 200 Scenario.node_running))
           Scenario.ping 30 2000 [] 2 (Response.mk 200 Scenario.node_running) H1).
  - intros h' Hlt. cbn in Hlt |- *.
    destruct (Nat.leb_spec (length (attempts h')) 1); [reflexivity|lia].
  - intros h' Heq. cbn in Heq |- *.
    destruct (Nat.leb_spec (length (attempts h')) 1); [lia|reflexivity].
Defined.

Lemma session_request_config_witness :
  fst (LayerEdgeConnection.new Scenario.always_500 None (Some "abc") "knYyWnsE" [])
    = Ok Scenario.session /\
  Forall (emits standard_request) (operations Scenario.always_500 Scenario.session).
Proof.
  assert (Hnew : fst (LayerEdgeConnection.new Scenario.always_500 None (Some "abc")
                        "knYyWnsE" []) = Ok Scenario.session) by (vm_compute; reflexivity).
  split; [exact Hnew|].
  exact (session_request_config _ _ _ _ _ _ Hnew).
Defined.

Lemma rejected_key_turn_witness :
  Entry.privateKey (Entry.mk "0xA" (Some "a")) = Some "a" /\
  nonempty "a" = true /\
  wallet_of_key Scenario.rejecting_keys "a" = None /\
  let r := process_wallet (LayerEdge Scenario.rejecting_keys) [] 1 0
             (Entry.mk "0xA" (Some "a")) [] in
  fst r = Ok tt /\ attempts (snd r) = [] /\ waits (snd r) = [5000%float].
Proof.
  assert (H1 : Entry.privateKey (Entry.mk "0xA" (Some "a")) = Some "a") by reflexivity.
  assert (H2 : nonempty "a" = true) by reflexivity.
  assert (H3 : wallet_of_key Scenario.rejecting_keys "a" = None) by reflexivity.
  split; [exact H1|]. split; [exact H2|]. split; [exact H3|].
  destruct (rejected_key_turn Scenario.rejecting_keys [] 1 0 _ "a" [] H1 H2 H3)
    as (R1 & R2 & R3 & _).
  repeat split; assumption.
Defined.

Lemma configured_wallet_turn_witness :
  Entry.privateKey (Entry.mk "0xA" (Some "a")) = Some "a" /\
  nonempty "a" = true /\
  wallet_of_key (Scenario.configured Scenario.node_running) "a"
    = Some (Wallet.mk "0xa" "a") /\
  fst (newAgent (Scenario.configured Scenario.node_running)
              (select_proxy ["http://10.0.0.1:8080"] 0) [])
    = Ok (Some (HttpsProxyAgent "http://10.0.0.1:8080")) /\
  Forall (in_turn (Scenario.configured Scenario.node_running) (Wallet.mk "0xa" "a")
            (Some (HttpsProxyAgent "http://10.0.0.1:8080")))
         (snd (process_wallet (LayerEdge (Scenario.configured Scenario.node_running))
                 ["http://10.0.0.1:8080"] 1 0 (Entry.mk "0xA" (Some "a")) [])).
Proof.
  assert (H1 : Entry.privateKey (Entry.mk "0xA" (Some "a")) = Some "a") by reflexivity.
  assert (H2 : nonempty "a" = true) by reflexivity.
  assert (H3 : wallet_of_key (Scenario.configured Scenario.node_running) "a"
               = Some (Wallet.mk "0xa" "a")) by reflexivity.
  assert (H4 : fst (newAgent (Scenario.configured Scenario.node_running)
              (select_proxy ["http://10.0.0.1:8080"] 0) [])
               = Ok (Some (HttpsProxyAgent "http://10.0.0.1:8080"))) by reflexivity.
  split; [exact H1|]. split; [exact H2|]. split; [exact H3|]. split; [exact H4|].
  exact (configured_wallet_turn _ _ 1 0 _ _ _ _ [] H1 H2 H3 H4).
Defined.

Lemma match_after_sound_witness :
  match_after "405: Please come back after 11 hours 58 minutes!" = Some "11 hours 58 minutes"
  /\ "11 hours 58 minutes" <> EmptyString
  /\ has_bang "11 hours 58 minutes" = false.
Proof.
  assert (H : match_after "405: Please come back after 11 hours 58 minutes!"
              = Some "11 hours 58 minutes") by reflexivity.
  split; [exact H|].
  destruct (match_after_sound _ _ H) as (R1 & R2 & _).
  split; assumption.
Defined.
